(** * Store: resumable-upload file server (server.js)

    A shallow embedding of [src/server.js]: the start-up block that makes
    the upload directory, the naming function handed to the upload engine,
    the gateway on [/files], and the three [/api/files] handlers (listing,
    download, delete), together with the parts of the
    JavaScript and Node.js runtime they call ([String.prototype.split],
    [Buffer.from(_, 'base64')], [Buffer.prototype.toString('utf-8')],
    [decodeURIComponent], [encodeURIComponent], [path.join] and the
    synchronous [fs] calls).

    Strings are byte strings: a JavaScript string is represented by its
    UTF-8 encoding, which is also what reaches the file system.  The name
    of an entry on the file system is any byte string; the enumeration of
    a directory decodes it into a JavaScript string. *)

From Stdlib Require Import ZArith NArith Ascii String List Bool Lia.
From stdpp Require Import base option list gmap strings pretty fin_maps.

Open Scope string_scope.
Open Scope list_scope.

(** ** Exceptions and results *)

Inductive errno := ENOENT | ENOTDIR | EISDIR.

Inductive exn :=
| SystemError (code : errno) (syscall : string) (path : string)
| URIError
| TypeError (msg : string).

Inductive result (A : Type) :=
| Ok (a : A)
| Throw (e : exn).
Arguments Ok {A} a.
Arguments Throw {A} e.

Definition errno_text (c : errno) : string :=
  match c with
  | ENOENT => "ENOENT: no such file or directory"
  | ENOTDIR => "ENOTDIR: not a directory"
  | EISDIR => "EISDIR: illegal operation on a directory"
  end.

(** [error.message] *)
Definition message (e : exn) : string :=
  match e with
  | SystemError c call p => errno_text c ++ ", " ++ call ++ " '" ++ p ++ "'"
  | URIError => "URI malformed"
  | TypeError m => m
  end.

(** ** JavaScript strings *)

Module JsString.

(** [s.split(sep)] for a one-character separator: never empty,
    [''.split(sep)] is [['']]. *)
Fixpoint split (sep : ascii) (s : string) : list string :=
  match s with
  | EmptyString => [EmptyString]
  | String c rest =>
      if Ascii.eqb c sep then EmptyString :: split sep rest
      else match split sep rest with
           | h :: t => String c h :: t
           | [] => [String c EmptyString]
           end
  end.

(** [s.endsWith(suffix)] *)
Fixpoint endsWith (s suffix : string) : bool :=
  String.eqb s suffix
  || match s with
     | EmptyString => false
     | String _ rest => endsWith rest suffix
     end.

(** [s.slice(0, -k)] *)
Definition slice_end (s : string) (k : nat) : string :=
  substring 0 (String.length s - k) s.

(** Truthiness of a string value: only [''] is falsy. *)
Definition truthy (s : string) : bool :=
  match s with EmptyString => false | _ => true end.

Definition of_bytes (l : list N) : string :=
  string_of_list_ascii (map ascii_of_N l).

End JsString.

(** ** [Buffer.from(value, 'base64')]

    Node's decoder is lenient: characters outside the alphabet are
    skipped, the first ['='] ends the decoding, both the standard and the
    URL-safe alphabet are accepted, and an incomplete final group yields
    the bytes it determines.  It never throws on a string argument. *)

Module Base64.

Definition unbase64 (c : ascii) : option N :=
  let n := N_of_ascii c in
  if (65 <=? n)%N && (n <=? 90)%N then Some (n - 65)%N
  else if (97 <=? n)%N && (n <=? 122)%N then Some (n - 71)%N
  else if (48 <=? n)%N && (n <=? 57)%N then Some (n + 4)%N
  else if (n =? 43)%N || (n =? 45)%N then Some 62%N
  else if (n =? 47)%N || (n =? 95)%N then Some 63%N
  else None.

(** The legal characters read before decoding stops. *)
Fixpoint sextets (s : string) : list N :=
  match s with
  | EmptyString => []
  | String c rest =>
      match unbase64 c with
      | Some v => v :: sextets rest
      | None => if Ascii.eqb c "="%char then [] else sextets rest
      end
  end.

Definition byte1 (a b : N) : N := (N.land a 63 * 4 + N.shiftr (N.land b 48) 4)%N.
Definition byte2 (b c : N) : N := (N.land b 15 * 16 + N.shiftr (N.land c 60) 2)%N.
Definition byte3 (c d : N) : N := (N.land c 3 * 64 + N.land d 63)%N.

Fixpoint groups (l : list N) : list N :=
  match l with
  | a :: b :: c :: d :: rest => byte1 a b :: byte2 b c :: byte3 c d :: groups rest
  | [a; b; c] => [byte1 a b; byte2 b c]
  | [a; b] => [byte1 a b]
  | _ => []
  end.

Definition decode (s : string) : list N := groups (sextets s).

End Base64.

(** ** [buffer.toString('utf-8')]

    Bytes that form well-formed UTF-8 are kept; every maximal ill-formed
    subsequence becomes U+FFFD (bytes EF BF BD). *)

Module Utf8.

Definition replacement : list N := [239; 191; 189]%N.

(** Decoder state: the bytes of the sequence being read, how many more
    are needed, and the range allowed for the next one. *)
Record pending := Pending { seen : list N; needed : nat; lower : N; upper : N }.

(** The sequence opened by a lead byte; [None] for a byte that cannot
    start one. *)
Definition lead (b : N) : option pending :=
  if (194 <=? b)%N && (b <=? 223)%N then Some (Pending [b] 1 128 191)
  else if (224 <=? b)%N && (b <=? 239)%N then
    Some (Pending [b] 2 (if (b =? 224)%N then 160 else 128)
                        (if (b =? 237)%N then 159 else 191))
  else if (240 <=? b)%N && (b <=? 244)%N then
    Some (Pending [b] 3 (if (b =? 240)%N then 144 else 128)
                        (if (b =? 244)%N then 143 else 191))
  else None.

(** A byte read while no sequence is open. *)
Definition start (b : N) : list N * option pending :=
  if (b <=? 127)%N then ([b], None)
  else match lead b with
       | Some p => ([], Some p)
       | None => (replacement, None)
       end.

Definition accepts (p : pending) (b : N) : bool :=
  (lower p <=? b)%N && (b <=? upper p)%N.

Definition advance (p : pending) (b : N) : list N * option pending :=
  match needed p with
  | 0%nat | 1%nat => (seen p ++ [b], None)
  | S k => ([], Some (Pending (seen p ++ [b]) k 128 191))
  end.

Definition step (st : option pending) (b : N) : list N * option pending :=
  match st with
  | None => start b
  | Some p =>
      if accepts p b then advance p b
      else let '(out, st') := start b in (replacement ++ out, st')
  end.

(** No replacement is needed: the bytes are well-formed UTF-8. *)
Fixpoint well_formed (st : option pending) (l : list N) : bool :=
  match l with
  | [] => match st with None => true | Some _ => false end
  | b :: rest =>
      match st with
      | None =>
          if (b <=? 127)%N then well_formed None rest
          else match lead b with
               | Some p => well_formed (Some p) rest
               | None => false
               end
      | Some p => accepts p b && well_formed (snd (advance p b)) rest
      end
  end.

Fixpoint run (st : option pending) (l : list N) : list N :=
  match l with
  | [] => match st with None => [] | Some _ => replacement end
  | b :: rest => let '(out, st') := step st b in out ++ run st' rest
  end.

Definition toString (l : list N) : string := JsString.of_bytes (run None l).

End Utf8.

(** ** The naming function (server.js, lines 29-41) *)

(** [metadataObj[key] = v] on an object literal: the key ["__proto__"]
    reaches the prototype setter, which ignores a string. *)
Definition set_property (key v : string) (obj : gmap string string)
  : gmap string string :=
  if String.eqb key "__proto__" then obj else <[key := v]> obj.

(** [Buffer.from(value, 'base64')] where [value] may be [undefined]. *)
Definition Buffer_from_base64 (value : option string) : result (list N) :=
  match value with
  | Some v => Ok (Base64.decode v)
  | None =>
      Throw (TypeError
        "The first argument must be of type string or an instance of Buffer, ArrayBuffer, or Array or an Array-like Object. Received undefined")
  end.

(** The body of the [forEach] callback. *)
Definition metadata_item (item : string) (obj : gmap string string)
  : result (gmap string string) :=
  let parts := JsString.split " "%char item in
  let key := hd EmptyString parts in
  let value := parts !! 1%nat in
  match Buffer_from_base64 value with
  | Ok buf => Ok (set_property key (Utf8.toString buf) obj)
  | Throw e => Throw e
  end.

Fixpoint forEach_item (items : list string) (obj : gmap string string)
  : result (gmap string string) :=
  match items with
  | [] => Ok obj
  | item :: rest =>
      match metadata_item item obj with
      | Ok obj' => forEach_item rest obj'
      | Throw e => Throw e
      end
  end.

(** [`file-${Date.now()}`] *)
Definition fallback_name (now : Z) : string := "file-" ++ pretty now.

(** [namingFunction]: [metadata] is [req.headers['upload-metadata']]
    ([None] for [undefined]) and [now] is what [Date.now()] returns. *)
Definition namingFunction (now : Z) (metadata : option string) : result string :=
  match metadata with
  | Some md =>
      if JsString.truthy md then
        match forEach_item (JsString.split ","%char md) ∅ with
        | Ok metadataObj =>
            match metadataObj !! "filename" with
            | Some name => if JsString.truthy name then Ok name
                           else Ok (fallback_name now)
            | None => Ok (fallback_name now)
            end
        | Throw e => Throw e
        end
      else Ok (fallback_name now)
  | None => Ok (fallback_name now)
  end.

(** ** [decodeURIComponent] and [encodeURIComponent] *)

Module URI.

Definition hex_value (c : ascii) : option N :=
  let n := N_of_ascii c in
  if (48 <=? n)%N && (n <=? 57)%N then Some (n - 48)%N
  else if (65 <=? n)%N && (n <=? 70)%N then Some (n - 55)%N
  else if (97 <=? n)%N && (n <=? 102)%N then Some (n - 87)%N
  else None.

Definition hex_char (n : N) : ascii :=
  ascii_of_N (if (n <? 10)%N then n + 48 else n + 55)%N.

(** Number of octets announced by a lead octet: its leading one bits. *)
Definition sequence_length (b : N) : option nat :=
  if (b <? 192)%N then None
  else if (b <? 224)%N then Some 2%nat
  else if (b <? 240)%N then Some 3%nat
  else if (b <? 248)%N then Some 4%nat
  else None.

Definition continuation (b : N) : bool := (128 <=? b)%N && (b <=? 191)%N.

(** [open] holds the octets of an escaped multi-byte character read so
    far and the number still to come.  [None] is a thrown [URIError]. *)
Fixpoint decode (open : option (list N * nat)) (s : string) : option string :=
  match s with
  | EmptyString => match open with None => Some EmptyString | Some _ => None end
  | String "%" (String h1 (String h2 rest)) =>
      match hex_value h1, hex_value h2 with
      | Some a, Some b =>
          let B := (16 * a + b)%N in
          match open with
          | None =>
              if (B <? 128)%N then String (ascii_of_N B) <$> decode None rest
              else match sequence_length B with
                   | Some n => decode (Some ([B], Nat.pred n)) rest
                   | None => None
                   end
          | Some (octets, k) =>
              if continuation B then
                match k with
                | 0%nat | 1%nat =>
                    if Utf8.well_formed None (octets ++ [B])
                    then String.append (JsString.of_bytes (octets ++ [B]))
                           <$> decode None rest
                    else None
                | S k' => decode (Some (octets ++ [B], k')) rest
                end
              else None
          end
      | _, _ => None
      end
  | String c rest =>
      if Ascii.eqb c "%" then None
      else match open with
           | None => String c <$> decode None rest
           | Some _ => None
           end
  end.

Definition decodeURIComponent (s : string) : result string :=
  match decode None s with
  | Some d => Ok d
  | None => Throw URIError
  end.

Definition unreserved (c : ascii) : bool :=
  let n := N_of_ascii c in
  ((65 <=? n)%N && (n <=? 90)%N) || ((97 <=? n)%N && (n <=? 122)%N)
  || ((48 <=? n)%N && (n <=? 57)%N)
  || existsb (Ascii.eqb c) ["-"; "_"; "."; "!"; "~"; "*"; "'"; "("; ")"]%char.

Fixpoint encodeURIComponent (s : string) : string :=
  match s with
  | EmptyString => EmptyString
  | String c rest =>
      if unreserved c then String c (encodeURIComponent rest)
      else let n := N_of_ascii c in
           String "%" (String (hex_char (n / 16)) (String (hex_char (n mod 16))
             (encodeURIComponent rest)))
  end.

End URI.

(** ** [path.join] (POSIX) *)

Module Path.

Definition is_dot (s : string) : bool := String.eqb s ".".
Definition is_dotdot (s : string) : bool := String.eqb s "..".

(** One segment of [normalizeString]; [res] is the result so far, last
    segment first. *)
Definition push (allowAboveRoot : bool) (res : list string) (seg : string)
  : list string :=
  if String.eqb seg "" || is_dot seg then res
  else if is_dotdot seg then
    match res with
    | top :: below =>
        if is_dotdot top then (if allowAboveRoot then seg :: res else res)
        else below
    | [] => if allowAboveRoot then [seg] else []
    end
  else seg :: res.

Definition normalizeString (allowAboveRoot : bool) (segs : list string)
  : list string :=
  rev (fold_left (push allowAboveRoot) segs []).

Fixpoint unsplit (segs : list string) : string :=
  match segs with
  | [] => ""
  | [s] => s
  | s :: rest => s ++ "/" ++ unsplit rest
  end.

Definition isAbsolute (p : string) : bool :=
  match p with String "/" _ => true | _ => false end.

Definition normalize (p : string) : string :=
  if String.eqb p "" then "."
  else
    let trailingSeparator := JsString.endsWith p "/" in
    let body :=
      unsplit (normalizeString (negb (isAbsolute p)) (JsString.split "/" p)) in
    if String.eqb body "" then
      if isAbsolute p then "/" else if trailingSeparator then "./" else "."
    else
      (if isAbsolute p then "/" else "") ++ body
      ++ (if trailingSeparator then "/" else "").

(** [path.join(a, b)] *)
Definition join (a b : string) : string :=
  if String.eqb a "" then (if String.eqb b "" then "." else normalize b)
  else if String.eqb b "" then normalize a
  else normalize (a ++ "/" ++ b).

End Path.

(** ** The file system and the synchronous [fs] calls

    A file system is a finite map from absolute paths, given as their
    lists of segments, to nodes.  There are regular files and directories
    only (no symbolic links, no permissions), and a path is looked up from
    the root one segment at a time. *)

Inductive node :=
| File (content : string) (mtime : Z)
| Directory (size : nat) (mtime : Z).

Abbreviation FS := (gmap (list string) node).

(** What [fs.statSync] hands back. *)
Definition isFile (n : node) : bool :=
  match n with File _ _ => true | Directory _ _ => false end.
Definition st_size (n : node) : nat :=
  match n with File c _ => String.length c | Directory s _ => s end.
Definition st_mtime (n : node) : Z :=
  match n with File _ m => m | Directory _ m => m end.

Module Fs.

Definition nonempty (s : string) : bool := negb (String.eqb s "").

(** The segments of a path; repeated and trailing separators carry no
    segment. *)
Definition segments (p : string) : list string :=
  List.filter nonempty (JsString.split "/" p).

(** Walk [rest] downwards from the node at [cur]. *)
Fixpoint walk (fs : FS) (cur rest : list string) : errno + node :=
  match fs !! cur with
  | None => inl ENOENT
  | Some n =>
      match rest with
      | [] => inr n
      | s :: rest' =>
          match n with
          | Directory _ _ => walk fs (cur ++ [s]) rest'
          | File _ _ => inl ENOTDIR
          end
      end
  end.

(** Path resolution: a trailing separator demands a directory. *)
Definition resolve (fs : FS) (p : string) : errno + node :=
  match walk fs [] (segments p) with
  | inr (File c m) =>
      if JsString.endsWith p "/" then inl ENOTDIR else inr (File c m)
  | r => r
  end.

(** [k] names an entry directly inside [dir]. *)
Fixpoint child_of (dir k : list string) : option string :=
  match dir, k with
  | [], [name] => Some name
  | d :: dir', s :: k' => if String.eqb d s then child_of dir' k' else None
  | _, _ => None
  end.

Definition entries (fs : FS) (dir : list string) : list string :=
  omap (fun kv => child_of dir (fst kv)) (map_to_list fs).

(** Synchronous calls act on the file system and may throw. *)
Definition M (A : Type) : Type := FS -> result A * FS.

Definition ret {A} (a : A) : M A := fun fs => (Ok a, fs).
Definition throw {A} (e : exn) : M A := fun fs => (Throw e, fs).
Definition bind {A B} (m : M A) (k : A -> M B) : M B :=
  fun fs => match m fs with
            | (Ok a, fs') => k a fs'
            | (Throw e, fs') => (Throw e, fs')
            end.
(** [try { m } catch (error) { h error }] *)
Definition try_catch {A} (m : M A) (h : exn -> M A) : M A :=
  fun fs => match m fs with
            | (Ok a, fs') => (Ok a, fs')
            | (Throw e, fs') => h e fs'
            end.
Definition lift {A} (r : result A) : M A := fun fs => (r, fs).

Definition existsSync (p : string) : M bool :=
  fun fs => (Ok (match resolve fs p with inr _ => true | inl _ => false end), fs).

Definition statSync (p : string) : M node :=
  fun fs => match resolve fs p with
            | inr n => (Ok n, fs)
            | inl e => (Throw (SystemError e "stat" p), fs)
            end.

(** [fs.readdirSync] hands out strings: the bytes of every entry name
    decoded as UTF-8, each ill-formed part reading U+FFFD.  A path given
    to a call is a string and is turned into its UTF-8 bytes, so a name
    that is not well-formed UTF-8 is not found again under the name
    reported for it. *)
Definition decode_name (raw : string) : string :=
  Utf8.toString (map N_of_ascii (list_ascii_of_string raw)).

Definition names (fs : FS) (dir : list string) : list string :=
  map decode_name (entries fs dir).

Definition readdirSync (p : string) : M (list string) :=
  fun fs => match resolve fs p with
            | inr (Directory _ _) => (Ok (names fs (segments p)), fs)
            | inr (File _ _) => (Throw (SystemError ENOTDIR "scandir" p), fs)
            | inl e => (Throw (SystemError e "scandir" p), fs)
            end.

Definition unlinkSync (p : string) : M unit :=
  fun fs => match resolve fs p with
            | inr (File _ _) => (Ok tt, delete (segments p) fs)
            | inr (Directory _ _) => (Throw (SystemError EISDIR "unlink" p), fs)
            | inl e => (Throw (SystemError e "unlink" p), fs)
            end.

(** [array.filter(f)] and [array.map(f)] with a callback that calls
    into the file system: elements are visited in order and the first
    exception ends the traversal. *)
Fixpoint filterM {A} (f : A -> M bool) (l : list A) : M (list A) :=
  match l with
  | [] => ret []
  | x :: rest =>
      bind (f x) (fun keep =>
      bind (filterM f rest) (fun kept =>
      ret (if keep then x :: kept else kept)))
  end.

Fixpoint mapM {A B} (f : A -> M B) (l : list A) : M (list B) :=
  match l with
  | [] => ret []
  | x :: rest =>
      bind (f x) (fun y =>
      bind (mapM f rest) (fun ys =>
      ret (y :: ys)))
  end.

End Fs.

Notation "x <- m ;; k" := (Fs.bind m (fun x => k))
  (at level 100, m at next level, right associativity, only parsing).
Notation "m ;;; k" := (Fs.bind m (fun _ => k))
  (at level 100, right associativity, only parsing).

(** ** HTTP responses *)

Record file_entry := FileEntry {
  name : string;        (* name *)
  size : nat;           (* size: stats.size *)
  uploadedAt : Z;       (* uploadedAt: stats.mtime *)
  url : string          (* url *)
}.

Inductive body :=
| JsonError (error : string)                      (* { error } *)
| JsonErrorDetails (error details : string)       (* { error, details } *)
| JsonMessage (message : string)                  (* { message } *)
| JsonFiles (files : list file_entry)             (* [ ... ] *)
| Attachment (filename content : string).         (* the file piped to the client *)

Record response := Response { status : nat; payload : body }.

(** ** The upload gateway (server.js, lines 45-63)

    [tusServer.handle(req, res)] belongs to the external upload engine.
    What the gateway observes of one call is whether the engine wrote a
    response (then [res.headersSent] holds) and whether the awaited call
    threw. *)

Record engine_outcome := EngineOutcome {
  engine_response : option response;
  engine_error : option exn
}.

Definition headersSent (o : engine_outcome) : bool :=
  match engine_response o with Some _ => true | None => false end.

(** The response the client gets for a request under [/files]. *)
Definition filesGateway (o : engine_outcome) : response :=
  match engine_error o with
  | None =>
      match engine_response o with
      | Some r => r
      | None => Response 404 (JsonError "Not found")
      end
  | Some error =>
      match engine_response o with
      | Some r => r
      | None => Response 500 (JsonErrorDetails "Internal server error" (message error))
      end
  end.

(** ** The file API (server.js, lines 66-165)

    The handlers get [req.params.filename], which the router has already
    percent-decoded once, and decode it again.  Console output is left
    out: it changes neither the response nor the directory. *)

Definition dquote : string := String (ascii_of_N 34) EmptyString.

(** [res.setHeader] refuses a value with a character other than TAB,
    0x20-0x7e and 0x80-0xff; in UTF-8 the characters from U+0100 on are
    those whose lead byte is at least 0xC4. *)
Definition invalid_header_byte (c : ascii) : bool :=
  let n := N_of_ascii c in
  ((n <? 32)%N && negb (n =? 9)%N) || (n =? 127)%N || (196 <=? n)%N.

Definition setHeader (field value : string) : Fs.M unit :=
  if existsb invalid_header_byte (list_ascii_of_string value)
  then Fs.throw (TypeError ("Invalid character in header content [" ++ dquote
                            ++ field ++ dquote ++ "]"))
  else Fs.ret tt.

(** [fs.createReadStream(p).pipe(res)] returns at once: the file is
    opened and read after the handler has returned.  The stream has no
    ['error'] listener, so a failed open or read is an error that nothing
    catches: the request gets no answer and the process exits. *)
Definition pipeFile (filename p : string) : Fs.M response :=
  fun fs => match Fs.resolve fs p with
            | inr (File content _) => (Ok (Response 200 (Attachment filename content)), fs)
            | inr (Directory _ _) => (Throw (SystemError EISDIR "read" p), fs)
            | inl e => (Throw (SystemError e "open" p), fs)
            end.

(** Something outside the process changes the directory between two
    calls of a handler. *)
Definition interference (g : FS -> FS) : Fs.M unit := fun fs => (Ok tt, g fs).

Section Server.

(** The directory of the module. *)
Variable __dirname : string.

Definition uploadsDir : string := Path.join __dirname "uploads".

(** [catch (error) { res.status(500).json({ error: error.message }) }] *)
Definition internalError (error : exn) : Fs.M response :=
  Fs.ret (Response 500 (JsonError (message error))).

(** The [filter] callback of the listing. *)
Definition keepEntry (file : string) : Fs.M bool :=
  let filePath := Path.join uploadsDir file in
  let regular := (stats <- Fs.statSync filePath ;; Fs.ret (isFile stats)) in
  if JsString.endsWith file ".info" then Fs.ret false
  else if JsString.endsWith file ".json" then
    let baseFileName := JsString.slice_end file 5 in
    let baseFilePath := Path.join uploadsDir baseFileName in
    present <- Fs.existsSync baseFilePath ;;
    sidecar <- (if present : bool
                then (stats <- Fs.statSync baseFilePath ;; Fs.ret (isFile stats))
                else Fs.ret false) ;;
    if sidecar : bool then Fs.ret false else regular
  else regular.

(** The [map] callback of the listing. *)
Definition describeEntry (file : string) : Fs.M file_entry :=
  let filePath := Path.join uploadsDir file in
  stats <- Fs.statSync filePath ;;
  Fs.ret {| name := file;
            size := st_size stats;
            uploadedAt := st_mtime stats;
            url := "/api/files/" ++ URI.encodeURIComponent file |}.

(** [.filter(...).map(...)] and [res.json(files)] on the names that
    [readdirSync] returned. *)
Definition listEntries (names : list string) : Fs.M response :=
  kept <- Fs.filterM keepEntry names ;;
  files <- Fs.mapM describeEntry kept ;;
  Fs.ret (Response 200 (JsonFiles files)).

(** [GET /api/files] *)
Definition listFiles : Fs.M response :=
  Fs.try_catch
    (names <- Fs.readdirSync uploadsDir ;; listEntries names)
    internalError.

(** [GET /api/files] while the directory is changed by [g] right after
    the enumeration. *)
Definition listFilesDuring (g : FS -> FS) : Fs.M response :=
  Fs.try_catch
    (names <- Fs.readdirSync uploadsDir ;;
     interference g ;;;
     listEntries names)
    internalError.

(** The [try] block of the download handler: an answer, or the name
    and the path of the file whose stream was piped to the response. *)
Definition startDownload (param : string) : Fs.M (response + string * string) :=
  Fs.try_catch
    (filename <- Fs.lift (URI.decodeURIComponent param) ;;
     let filePath := Path.join uploadsDir filename in
     present <- Fs.existsSync filePath ;;
     if negb present then Fs.ret (inl (Response 404 (JsonError "File not found")))
     else
       setHeader "Content-Disposition"
         ("attachment; filename=" ++ dquote ++ filename ++ dquote) ;;;
       setHeader "Content-Type" "application/octet-stream" ;;;
       Fs.ret (inr (filename, filePath)))
    (fun error => res <- internalError error ;; Fs.ret (inl res)).

(** [GET /api/files/:filename]; [param] is [req.params.filename].  The
    stream runs once the [try] block is left, out of reach of its
    [catch]: a [Throw] of this handler is the process exiting on the
    stream's error. *)
Definition downloadFile (param : string) : Fs.M response :=
  started <- startDownload param ;;
  match started with
  | inl res => Fs.ret res
  | inr (filename, filePath) => pipeFile filename filePath
  end.

(** [DELETE /api/files/:filename]; [param] is [req.params.filename]. *)
Definition deleteFile (param : string) : Fs.M response :=
  Fs.try_catch
    (filename <- Fs.lift (URI.decodeURIComponent param) ;;
     let filePath := Path.join uploadsDir filename in
     present <- Fs.existsSync filePath ;;
     if negb present then Fs.ret (Response 404 (JsonError "File not found"))
     else
       Fs.unlinkSync filePath ;;;
       let metadataInfoPath := (filePath ++ ".info")%string in
       hasInfo <- Fs.existsSync metadataInfoPath ;;
       (if hasInfo : bool then Fs.unlinkSync metadataInfoPath else Fs.ret tt) ;;;
       let metadataJsonPath := (filePath ++ ".json")%string in
       hasJson <- Fs.existsSync metadataJsonPath ;;
       (if hasJson : bool then Fs.unlinkSync metadataJsonPath else Fs.ret tt) ;;;
       Fs.ret (Response 200 (JsonMessage "File deleted successfully")))
    internalError.

End Server.

(** ** A sample deployment *)

Definition app_root : string := "/srv/store".

Definition dir0 : node := Directory 4096 0.

Definition base_fs : FS :=
  list_to_map [([], dir0); (["srv"], dir0); (["srv"; "store"], dir0);
               (["srv"; "store"; "server.js"], File "const express" 5);
               (["srv"; "store"; "uploads"], dir0)].

Definition up (name : string) : list string := ["srv"; "store"; "uploads"; name].

Definition video_fs : FS :=
  <[up "video.mp4" := File "MP4DATA" 10]>
  (<[up "video.mp4.info" := File "{offset}" 11]>
  (<[up "video.mp4.json" := File "{meta}" 12]>
  (<[up "report.json" := File "{}" 13]> base_fs))).

(** A directory among the uploads. *)
Definition album_fs : FS := <[up "album" := dir0]> base_fs.

(** An upload whose [.json] path is a directory. *)
Definition clip_fs : FS :=
  <[up "clip.mov" := File "MOV" 20]> (<[up "clip.mov.json" := dir0]> base_fs).

(** Two finished uploads. *)
Definition race_fs : FS :=
  <[up "a.txt" := File "A" 1]> (<[up "b.txt" := File "B" 2]> base_fs).

(** A directory whose name ends with [.json]. *)
Definition json_dir_fs : FS := <[up "d.json" := dir0]> base_fs.

(** An upload whose [.info] path is a directory. *)
Definition stuck_fs : FS :=
  <[up "video.mp4" := File "MP4DATA" 10]>
  (<[up "video.mp4.info" := dir0]>
  (<[up "video.mp4.json" := File "{meta}" 12]> base_fs)).

(** An orphaned progress artifact. *)
Definition orphan_fs : FS :=
  <[up "ghost.txt.info" := File "{offset}" 3]> base_fs.

(** ** Vocabulary of the statements *)

(** [file] is one of the names in the listing that was sent. *)
Definition listed (file : string) (r : result response) : Prop :=
  match r with
  | Ok (Response _ (JsonFiles files)) => In file (map name files)
  | _ => False
  end.

(** The path resolves to a regular file. *)
Definition is_regular (fs : FS) (p : string) : bool :=
  match Fs.resolve fs p with
  | inr (File _ _) => true
  | _ => false
  end.

(** A [key value] pair of the metadata header, as the callback reads
    it: the text before the first space, and the decoded text between the
    first and the second space. *)
Definition has_value (item : string) : bool :=
  match JsString.split " " item with
  | _ :: _ :: _ => true
  | _ => false
  end.

Definition item_key (item : string) : string :=
  hd EmptyString (JsString.split " " item).

Definition item_value (item : string) : string :=
  Utf8.toString (Base64.decode (nth 1 (JsString.split " " item) EmptyString)).

(** Every pair written into the object, in order. *)
Definition store_all (items : list string) (obj : gmap string string)
  : gmap string string :=
  fold_left (fun o item => set_property (item_key item) (item_value item) o)
            items obj.

(** The value of the last pair with the given key. *)
Definition last_value_from (key : string) (items : list string)
  (init : option string) : option string :=
  fold_left (fun acc item =>
               if String.eqb (item_key item) key
               then Some (item_value item) else acc)
            items init.

Definition last_value (key : string) (items : list string) : option string :=
  last_value_from key items None.

Definition readonly {A} (m : Fs.M A) : Prop := forall fs, snd (m fs) = fs.

(** What the handler answers once the enumeration succeeded. *)
Definition answer (r : result response) : result response :=
  match r with
  | Ok res => Ok res
  | Throw e => Ok (Response 500 (JsonError (message e)))
  end.

Definition notFound : response := Response 404 (JsonError "File not found").
Definition deleted : response := Response 200 (JsonMessage "File deleted successfully").
Definition unlinkFailed (p : string) : response :=
  Response 500 (JsonError (message (SystemError EISDIR "unlink" p))).

Definition after_cleanup (q : string) (fs : FS) : FS :=
  if is_regular fs q then delete (Fs.segments q) fs else fs.

Definition is_directory (fs : FS) (p : string) : bool :=
  match Fs.resolve fs p with
  | inr (Directory _ _) => true
  | _ => false
  end.

Definition remove_regular (fs0 : FS) (q : string) (fs : FS) : FS :=
  if is_regular fs0 q then delete (Fs.segments q) fs else fs.

Definition exists_path (fs : FS) (p : string) : bool :=
  match Fs.resolve fs p with inr _ => true | inl _ => false end.

Definition chosen_name (now : Z) (items : list string) : string :=
  match last_value "filename" items with
  | Some name => if JsString.truthy name then name else fallback_name now
  | None => fallback_name now
  end.

(** No byte of the text is refused by [res.setHeader]. *)
Definition header_safe (s : string) : bool :=
  negb (existsb invalid_header_byte (list_ascii_of_string s)).

(** What the listing filter decides for a name, read off the directory:
    not a progress artifact, not the sidecar of a regular file, and a
    regular file itself. *)
Definition listable (dirname : string) (fs : FS) (file : string) : bool :=
  negb (JsString.endsWith file ".info")
  && negb (JsString.endsWith file ".json"
           && is_regular fs (Path.join (uploadsDir dirname)
                               (JsString.slice_end file 5)))
  && is_regular fs (Path.join (uploadsDir dirname) file).

(** ** Plain names and canonical paths *)

Definition slash_free (s : string) : bool :=
  forallb (fun c => negb (Ascii.eqb c "/")) (list_ascii_of_string s).

(** A segment that [path.join] keeps: not empty, neither [.] nor [..]. *)
Definition proper (s : string) : bool :=
  Fs.nonempty s && negb (Path.is_dot s) && negb (Path.is_dotdot s).

(** A plain entry name: a proper segment without a separator. *)
Definition plain (s : string) : bool := proper s && slash_free s.

(** The text contains no ['%']. *)
Definition percent_free (s : string) : bool :=
  forallb (fun c => negb (Ascii.eqb c "%")) (list_ascii_of_string s).

(** The absolute path with the given segments. *)
Definition canonical (segs : list string) : string :=
  String "/" (Path.unsplit segs).

(** The segments [path.join] keeps of an absolute directory. *)
Definition kept_segments (dir : string) : list string :=
  Path.normalizeString false (JsString.split "/" dir).

(** Every key of the file system is made of plain names. *)
Definition plain_keys (fs : FS) : Prop :=
  forall k n, fs !! k = Some n -> Forall (fun s => plain s = true) k.

(** The bytes of a name, and names that are well-formed UTF-8. *)
Definition name_bytes (s : string) : list N :=
  map N_of_ascii (list_ascii_of_string s).

Definition utf8_name (s : string) : bool :=
  Utf8.well_formed None (name_bytes s).

(** Every entry of the upload directory has a name that is well-formed
    UTF-8. *)
Definition utf8_names (dirname : string) (fs : FS) : bool :=
  forallb utf8_name (Fs.entries fs (Fs.segments (uploadsDir dirname))).

(** An open multi-byte sequence whose bytes so far are consistent with
    the UTF-8 decoder. *)
Definition open_ok (p : Utf8.pending) : Prop :=
  (forall l, Utf8.well_formed None (Utf8.seen p ++ l) = Utf8.well_formed (Some p) l)
  /\ (128 <= Utf8.lower p)%N /\ (Utf8.upper p <= 191)%N.

Definition decoder_state (st : option Utf8.pending) : option (list N * nat) :=
  match st with
  | None => None
  | Some p => Some (Utf8.seen p, Utf8.needed p)
  end.

Definition decoded_so_far (st : option Utf8.pending) : string :=
  match st with
  | None => EmptyString
  | Some p => JsString.of_bytes (Utf8.seen p)
  end.

(** ** Start-up: creating the upload directory (server.js, lines 18-21)

    [fs.mkdirSync(p, { recursive: true })] makes every missing directory
    on the way to [p].  It is called at the top level of the module, so
    an error ends the process.  New directories get the given size and
    modification time. *)

Inductive mkdir_result :=
| Made (fs : FS)
| MkdirENOTDIR
| MkdirEEXIST.

Fixpoint mkdir_p (size : nat) (now : Z) (fs : FS) (cur rest : list string)
  : mkdir_result :=
  match fs !! cur with
  | Some (File _ _) =>
      match rest with [] => MkdirEEXIST | _ :: _ => MkdirENOTDIR end
  | Some (Directory _ _) =>
      match rest with
      | [] => Made fs
      | a :: rest' => mkdir_p size now fs (cur ++ [a]) rest'
      end
  | None =>
      let fs1 := <[cur := Directory size now]> fs in
      match rest with
      | [] => Made fs1
      | a :: rest' => mkdir_p size now fs1 (cur ++ [a]) rest'
      end
  end.

Definition mkdirSync_recursive (size : nat) (now : Z) (p : string) (fs : FS)
  : mkdir_result :=
  mkdir_p size now fs [] (Fs.segments p).

(** [if (!fs.existsSync(uploadsDir)) fs.mkdirSync(uploadsDir, { recursive: true })] *)
Definition startup (size : nat) (now : Z) (dirname : string) (fs : FS)
  : mkdir_result :=
  if exists_path fs (uploadsDir dirname) then Made fs
  else mkdirSync_recursive size now (uploadsDir dirname) fs.

(** ** Further sample file systems *)

(** A module directory without its upload directory. *)
Definition bare_fs : FS :=
  list_to_map [([], dir0); (["srv"], dir0); (["srv"; "store"], dir0)].

(** An upload whose name is not Latin-1 (U+0430). *)
Definition cyrillic_fs : FS :=
  <[up (JsString.of_bytes [208; 176]%N) := File "data" 21]> base_fs.

(** An upload whose name (bytes FF 61) is not UTF-8. *)
Definition legacy_fs : FS :=
  <[up (JsString.of_bytes [255; 97]%N) := File "data" 22]> base_fs.

(** * Properties *)

(** ** Sanity checks of the runtime model and of the handlers *)

Example naming_test_txt :
  namingFunction 1700000000000 (Some "filename dGVzdC50eHQ=") = Ok "test.txt".
Proof. vm_compute. reflexivity. Qed.

Example naming_absent :
  namingFunction 1700000000000 None = Ok "file-1700000000000".
Proof. vm_compute. reflexivity. Qed.

Example join_plain : Path.join "/srv/store/uploads" "a.txt" = "/srv/store/uploads/a.txt".
Proof. reflexivity. Qed.
Example join_up : Path.join "/srv/store/uploads" "../server.js" = "/srv/store/server.js".
Proof. reflexivity. Qed.
Example join_root : Path.join "/srv/store/uploads" "../../../../etc/" = "/etc/".
Proof. reflexivity. Qed.
Example decode_slash : URI.decodeURIComponent "..%2Fserver.js" = Ok "../server.js".
Proof. reflexivity. Qed.
Example decode_bad : URI.decodeURIComponent "%E0%80%80" = Throw URIError.
Proof. reflexivity. Qed.
Example decode_utf8 : URI.decodeURIComponent "%D0%B0b" = Ok (JsString.of_bytes [208;176;98]%N).
Proof. reflexivity. Qed.
Example encode_space : URI.encodeURIComponent "a b/c.txt" = "a%20b%2Fc.txt".
Proof. reflexivity. Qed.

(** An entry whose name is not UTF-8 is reported with U+FFFD in its
    name, and the filter finds nothing under the reported name. *)
Example list_undecodable_name :
  Fs.readdirSync (uploadsDir app_root) legacy_fs
  = (Ok [JsString.of_bytes [239; 191; 189; 97]%N], legacy_fs)
  /\ fst (listFiles app_root legacy_fs)
     = Ok (Response 500 (JsonError (message
            (SystemError ENOENT "stat"
               (Path.join (uploadsDir app_root)
                  (JsString.of_bytes [239; 191; 189; 97]%N)))))).
Proof. split; vm_compute; reflexivity. Qed.

(** A directory under the name asked for: the stream fails after the
    handler has returned, and nothing catches the error. *)
Example download_directory :
  fst (downloadFile app_root "d.json" json_dir_fs)
  = Throw (SystemError EISDIR "read" "/srv/store/uploads/d.json").
Proof. vm_compute. reflexivity. Qed.

Example list_video :
  fst (listFiles app_root video_fs)
  = Ok (Response 200 (JsonFiles
      [FileEntry "report.json" 2 13 "/api/files/report.json";
       FileEntry "video.mp4" 7 10 "/api/files/video.mp4"])).
Proof. vm_compute. reflexivity. Qed.

Example delete_video :
  deleteFile app_root "video.mp4" video_fs
  = (Ok (Response 200 (JsonMessage "File deleted successfully")),
     <[up "report.json" := File "{}" 13]> base_fs).
Proof. vm_compute. reflexivity. Qed.

(** ** Strings and paths *)

Lemma endsWith_cons c (s t : string) :
  JsString.endsWith (String c s) t
  = (String.eqb (String c s) t || JsString.endsWith s t).
Proof. reflexivity. Qed.

Lemma endsWith_refl (t : string) : JsString.endsWith t t = true.
Proof. destruct t; [reflexivity|]. now rewrite endsWith_cons, String.eqb_refl. Qed.

Lemma endsWith_app (u t : string) : JsString.endsWith (u ++ t) t = true.
Proof.
  induction u as [|c u IH]; [apply endsWith_refl|].
  change (String c u ++ t)%string with (String c (u ++ t)).
  rewrite endsWith_cons, IH. apply orb_true_r.
Qed.

Lemma endsWith_inv (s t : string) :
  JsString.endsWith s t = true -> exists u, s = (u ++ t)%string.
Proof.
  induction s as [|c s IH]; intros H.
  - destruct t; [now exists EmptyString|discriminate].
  - rewrite endsWith_cons in H. apply orb_true_iff in H as [H|H].
    + apply String.eqb_eq in H. now exists EmptyString.
    + destruct (IH H) as [u ->]. now exists (String c u).
Qed.

Lemma length_append (u t : string) :
  String.length (u ++ t) = (String.length u + String.length t)%nat.
Proof. induction u as [|c u IH]; simpl; [reflexivity|now rewrite IH]. Qed.

Lemma append_inj_same_length (u v t t' : string) :
  (u ++ t)%string = (v ++ t')%string -> String.length t = String.length t' -> t = t'.
Proof.
  intros H L.
  assert (Hlen : String.length u = String.length v).
  { apply (f_equal String.length) in H. rewrite !length_append in H. lia. }
  revert v H Hlen. induction u as [|c u IH]; intros [|d v] H Hlen;
    simpl in *; try discriminate; [assumption|].
  injection H as _ H. injection Hlen as Hlen. eauto.
Qed.

(** The two suffixes exclude each other. *)
Lemma json_is_not_info (file : string) :
  JsString.endsWith file ".json" = true -> JsString.endsWith file ".info" = false.
Proof.
  intros H. destruct (JsString.endsWith file ".info") eqn:E; [|reflexivity].
  apply endsWith_inv in H as [u ->]. apply endsWith_inv in E as [v E].
  apply append_inj_same_length in E; [discriminate|reflexivity].
Qed.

(** ** Read-only computations *)

Lemma readonly_ret {A} (a : A) : readonly (Fs.ret a).
Proof. intros fs. reflexivity. Qed.

Lemma readonly_bind {A B} (m : Fs.M A) (k : A -> Fs.M B) :
  readonly m -> (forall a, readonly (k a)) -> readonly (Fs.bind m k).
Proof.
  intros Hm Hk fs. unfold Fs.bind. specialize (Hm fs).
  destruct (m fs) as [[a|e] fs']; simpl in *; subst; [apply Hk|reflexivity].
Qed.

Lemma readonly_existsSync p : readonly (Fs.existsSync p).
Proof. intros fs. reflexivity. Qed.

Lemma readonly_statSync p : readonly (Fs.statSync p).
Proof. intros fs. unfold Fs.statSync. now destruct (Fs.resolve fs p). Qed.

Lemma readonly_stat_isFile p :
  readonly (stats <- Fs.statSync p ;; Fs.ret (isFile stats)).
Proof. apply readonly_bind; [apply readonly_statSync|intros; apply readonly_ret]. Qed.

Lemma readonly_keepEntry dirname file : readonly (keepEntry dirname file).
Proof.
  unfold keepEntry.
  destruct (JsString.endsWith file ".info"); [apply readonly_ret|].
  destruct (JsString.endsWith file ".json"); [|apply readonly_stat_isFile].
  apply readonly_bind; [apply readonly_existsSync|intros present].
  apply readonly_bind.
  - destruct present; [apply readonly_stat_isFile|apply readonly_ret].
  - intros [|]; [apply readonly_ret|apply readonly_stat_isFile].
Qed.

Lemma readonly_describeEntry dirname file : readonly (describeEntry dirname file).
Proof.
  unfold describeEntry.
  apply readonly_bind; [apply readonly_statSync|intros; apply readonly_ret].
Qed.

Lemma readonly_run {A} (m : Fs.M A) fs : readonly m -> m fs = (fst (m fs), fs).
Proof. intros H. rewrite <- (H fs) at 3. now destruct (m fs). Qed.

(** ** [filter] and [map] with a read-only callback *)

Lemma filterM_readonly {A} (f : A -> Fs.M bool) l :
  (forall x, readonly (f x)) -> readonly (Fs.filterM f l).
Proof.
  intros Hf. induction l as [|x l IH]; simpl; [apply readonly_ret|].
  apply readonly_bind; [apply Hf|intros keep].
  apply readonly_bind; [apply IH|intros; apply readonly_ret].
Qed.

Lemma mapM_readonly {A B} (f : A -> Fs.M B) l :
  (forall x, readonly (f x)) -> readonly (Fs.mapM f l).
Proof.
  intros Hf. induction l as [|x l IH]; simpl; [apply readonly_ret|].
  apply readonly_bind; [apply Hf|intros y].
  apply readonly_bind; [apply IH|intros; apply readonly_ret].
Qed.

(** An element is kept exactly when the callback answered [true]. *)
Lemma filterM_kept {A} (f : A -> Fs.M bool) l fs kept :
  (forall x, readonly (f x)) ->
  fst (Fs.filterM f l fs) = Ok kept ->
  forall x, In x kept <-> In x l /\ fst (f x fs) = Ok true.
Proof.
  intros Hf. revert kept. induction l as [|a l IH]; simpl; intros kept H x.
  - injection H as <-. simpl. tauto.
  - unfold Fs.bind in H. rewrite (readonly_run (f a) fs (Hf a)) in H.
    destruct (fst (f a fs)) as [keep|e] eqn:Ea; [|discriminate].
    rewrite (readonly_run _ fs (filterM_readonly f l Hf)) in H.
    destruct (fst (Fs.filterM f l fs)) as [kept'|e] eqn:El; [|discriminate].
    simpl in H. injection H as <-. specialize (IH kept' eq_refl x).
    destruct keep; simpl; rewrite IH; split.
    + intros [->|[? ?]]; auto.
    + intros [[->|?] ?]; auto.
    + intros [? ?]; auto.
    + intros [[->|?] ?]; [congruence|auto].
Qed.

(** One throwing callback makes the whole [filter] throw. *)
Lemma filterM_throws {A} (f : A -> Fs.M bool) l fs x e :
  (forall y, readonly (f y)) ->
  In x l -> fst (f x fs) = Throw e ->
  exists e', Fs.filterM f l fs = (Throw e', fs).
Proof.
  intros Hf. induction l as [|a l IH]; simpl; intros Hin Hx; [contradiction|].
  unfold Fs.bind. rewrite (readonly_run (f a) fs (Hf a)).
  destruct (fst (f a fs)) as [keep|e0] eqn:Ea; [|eauto].
  destruct Hin as [->|Hin]; [congruence|].
  destruct (IH Hin Hx) as [e' ->]. eauto.
Qed.

Lemma mapM_names dirname l fs files :
  fst (Fs.mapM (describeEntry dirname) l fs) = Ok files -> map name files = l.
Proof.
  revert files. induction l as [|a l IH]; simpl; intros files H.
  - now injection H as <-.
  - unfold Fs.bind in H.
    rewrite (readonly_run _ fs (readonly_describeEntry dirname a)) in H.
    destruct (fst (describeEntry dirname a fs)) as [y|e] eqn:Ea; [|discriminate].
    rewrite (readonly_run _ fs (mapM_readonly _ l (readonly_describeEntry dirname))) in H.
    destruct (fst (Fs.mapM (describeEntry dirname) l fs)) as [ys|e] eqn:El; [|discriminate].
    simpl in H. injection H as <-. simpl. rewrite (IH ys eq_refl). f_equal.
    unfold describeEntry, Fs.bind, Fs.statSync in Ea.
    destruct (Fs.resolve fs _); simpl in Ea; [discriminate|]. now injection Ea as <-.
Qed.

(** ** The listing *)

Lemma listEntries_run dirname names fs :
  listEntries dirname names fs
  = (match fst (Fs.filterM (keepEntry dirname) names fs) with
     | Ok kept =>
         match fst (Fs.mapM (describeEntry dirname) kept fs) with
         | Ok files => Ok (Response 200 (JsonFiles files))
         | Throw e => Throw e
         end
     | Throw e => Throw e
     end, fs).
Proof.
  unfold listEntries, Fs.bind.
  rewrite (readonly_run _ fs (filterM_readonly _ names (readonly_keepEntry dirname))).
  destruct (fst (Fs.filterM _ names fs)) as [kept|e]; [|reflexivity].
  rewrite (readonly_run _ fs (mapM_readonly _ kept (readonly_describeEntry dirname))).
  simpl. now destruct (fst (Fs.mapM _ kept fs)).
Qed.

Lemma listed_listEntries dirname names fs file :
  listed file (fst (listEntries dirname names fs)) ->
  In file names /\ fst (keepEntry dirname file fs) = Ok true.
Proof.
  rewrite listEntries_run. simpl.
  destruct (fst (Fs.filterM _ names fs)) as [kept|e] eqn:Ek; [|contradiction].
  destruct (fst (Fs.mapM _ kept fs)) as [files|e] eqn:Em; [|contradiction].
  simpl. rewrite (mapM_names _ _ _ _ Em).
  apply (filterM_kept _ _ _ _ (readonly_keepEntry dirname) Ek).
Qed.

Lemma listEntries_files dirname names fs files file :
  fst (listEntries dirname names fs) = Ok (Response 200 (JsonFiles files)) ->
  In file (map name files)
  <-> In file names /\ fst (keepEntry dirname file fs) = Ok true.
Proof.
  rewrite listEntries_run. simpl.
  destruct (fst (Fs.filterM _ names fs)) as [kept|e] eqn:Ek; [|discriminate].
  destruct (fst (Fs.mapM _ kept fs)) as [fs'|e] eqn:Em; [|discriminate].
  intros H. injection H as <-. rewrite (mapM_names _ _ _ _ Em).
  apply (filterM_kept _ _ _ _ (readonly_keepEntry dirname) Ek).
Qed.

Lemma listFilesDuring_run dirname g fs :
  listFilesDuring dirname g fs
  = match Fs.resolve fs (uploadsDir dirname) with
    | inr (Directory _ _) =>
        (answer (fst (listEntries dirname
                        (Fs.names fs (Fs.segments (uploadsDir dirname))) (g fs))),
         g fs)
    | inr (File _ _) =>
        (Ok (Response 500 (JsonError
               (message (SystemError ENOTDIR "scandir" (uploadsDir dirname))))), fs)
    | inl e =>
        (Ok (Response 500 (JsonError
               (message (SystemError e "scandir" (uploadsDir dirname))))), fs)
    end.
Proof.
  unfold listFilesDuring, Fs.try_catch, Fs.bind, Fs.readdirSync, interference.
  destruct (Fs.resolve fs (uploadsDir dirname)) as [e|[c m|s m]]; try reflexivity.
  rewrite listEntries_run. simpl.
  destruct (fst (Fs.filterM _ _ (g fs))) as [kept|e]; [|reflexivity].
  now destruct (fst (Fs.mapM _ kept (g fs))).
Qed.

Lemma listFiles_quiet dirname fs :
  listFiles dirname fs = listFilesDuring dirname (fun d => d) fs.
Proof.
  unfold listFiles, listFilesDuring, Fs.try_catch, Fs.bind, interference.
  now destruct (Fs.readdirSync (uploadsDir dirname) fs) as [[names|e] fs'].
Qed.

Lemma listed_listFilesDuring dirname g fs file :
  listed file (fst (listFilesDuring dirname g fs)) ->
  In file (Fs.names fs (Fs.segments (uploadsDir dirname)))
  /\ fst (keepEntry dirname file (g fs)) = Ok true.
Proof.
  rewrite listFilesDuring_run.
  destruct (Fs.resolve fs (uploadsDir dirname)) as [e|[c m|s m]]; simpl;
    try contradiction.
  intros H. apply listed_listEntries.
  destruct (fst (listEntries _ _ (g fs))) as [r|e]; [exact H|contradiction].
Qed.

Lemma keepEntry_info dirname file fs :
  JsString.endsWith file ".info" = true -> keepEntry dirname file fs = (Ok false, fs).
Proof. intros H. unfold keepEntry. now rewrite H. Qed.

(** C9. An entry whose name ends with [.info] is dropped by the filter
    without any look at the file system, whatever the directory holds, so
    it is in no listing the handler sends, with or without a concurrent
    change of the directory. *)
Theorem info_entries_never_listed dirname g fs file :
  JsString.endsWith file ".info" = true ->
  keepEntry dirname file fs = (Ok false, fs)
  /\ ~ listed file (fst (listFiles dirname fs))
  /\ ~ listed file (fst (listFilesDuring dirname g fs)).
Proof.
  intros H. split; [now apply keepEntry_info|].
  split; [rewrite listFiles_quiet|];
    intros L; apply listed_listFilesDuring in L as [_ L];
    rewrite keepEntry_info in L by assumption; discriminate.
Qed.

Lemma substring_prefix (u t : string) :
  substring 0 (String.length u) (u ++ t) = u.
Proof.
  induction u as [|c u IH]; simpl; [now destruct t|now rewrite IH].
Qed.

(** Stripping the suffix from [<base>.json] gives [<base>]. *)
Lemma slice_end_json (base : string) :
  JsString.slice_end (base ++ ".json") 5 = base.
Proof.
  unfold JsString.slice_end. rewrite length_append. simpl String.length.
  replace (String.length base + 5 - 5)%nat with (String.length base) by lia.
  apply substring_prefix.
Qed.

Lemma stat_isFile_run fs p :
  (stats <- Fs.statSync p ;; Fs.ret (isFile stats)) fs
  = (match Fs.resolve fs p with
     | inr n => Ok (isFile n)
     | inl e => Throw (SystemError e "stat" p)
     end, fs).
Proof. unfold Fs.bind, Fs.statSync. now destruct (Fs.resolve fs p). Qed.

(** The filter on a name that does not end with [.info]. *)
Lemma keepEntry_run dirname file fs :
  JsString.endsWith file ".info" = false ->
  keepEntry dirname file fs
  = if JsString.endsWith file ".json"
       && is_regular fs (Path.join (uploadsDir dirname) (JsString.slice_end file 5))
    then (Ok false, fs)
    else (match Fs.resolve fs (Path.join (uploadsDir dirname) file) with
          | inr n => Ok (isFile n)
          | inl e => Throw (SystemError e "stat" (Path.join (uploadsDir dirname) file))
          end, fs).
Proof.
  intros Hinfo. unfold keepEntry. rewrite Hinfo.
  destruct (JsString.endsWith file ".json"); simpl; [|apply stat_isFile_run].
  unfold is_regular. unfold Fs.bind at 1. unfold Fs.existsSync.
  destruct (Fs.resolve fs (Path.join (uploadsDir dirname) (JsString.slice_end file 5)))
    as [e|[c m|s m]] eqn:E.
  - unfold Fs.bind at 1. simpl. apply stat_isFile_run.
  - unfold Fs.bind at 1. rewrite stat_isFile_run, E. reflexivity.
  - unfold Fs.bind at 1. rewrite stat_isFile_run, E. simpl. apply stat_isFile_run.
Qed.

Lemma answer_files r files :
  answer r = Ok (Response 200 (JsonFiles files)) ->
  r = Ok (Response 200 (JsonFiles files)).
Proof. destruct r; simpl; [trivial|discriminate]. Qed.

(** C6 (amended). For a name [<base>.json] that the enumeration of the
    upload directory reports and that itself resolves to a regular file,
    the filter answers [false] exactly when [<base>] resolves to a regular
    file in the directory as it is now, and in the listing that is sent
    the name is present exactly when it does not.  The answer depends on
    the current file system only. *)
Theorem sidecar_hidden_iff_primary_regular dirname fs base content mtime :
  let file := (base ++ ".json")%string in
  In file (Fs.names fs (Fs.segments (uploadsDir dirname))) ->
  Fs.resolve fs (Path.join (uploadsDir dirname) file) = inr (File content mtime) ->
  keepEntry dirname file fs
  = (Ok (negb (is_regular fs (Path.join (uploadsDir dirname) base))), fs)
  /\ forall files,
       fst (listFiles dirname fs) = Ok (Response 200 (JsonFiles files)) ->
       (In file (map name files)
        <-> is_regular fs (Path.join (uploadsDir dirname) base) = false).
Proof.
  intros file Hin Hfile.
  assert (Hjson : JsString.endsWith file ".json" = true) by apply endsWith_app.
  assert (Hkeep : keepEntry dirname file fs
          = (Ok (negb (is_regular fs (Path.join (uploadsDir dirname) base))), fs)).
  { rewrite keepEntry_run by now apply json_is_not_info.
    rewrite Hjson. unfold file at 1. rewrite slice_end_json. simpl.
    destruct (is_regular fs (Path.join (uploadsDir dirname) base)); [reflexivity|].
    now rewrite Hfile. }
  split; [exact Hkeep|].
  intros files H. rewrite listFiles_quiet, listFilesDuring_run in H.
  destruct (Fs.resolve fs (uploadsDir dirname)) as [e|[c m|s m]];
    try discriminate.
  apply answer_files in H. rewrite (listEntries_files _ _ _ _ file H), Hkeep.
  simpl. destruct (is_regular fs (Path.join (uploadsDir dirname) base)); simpl.
  - split; [intros [_ ?]; discriminate|discriminate].
  - tauto.
Qed.

(** C3 (amended). The listing is all-or-nothing.  When the directory
    cannot be read, because its path does not resolve or because it is a
    regular file, the answer is a 500 with the error message.  When a name
    that the enumeration reported, and that the filter has to stat, does
    not resolve by the time of the stat, the whole listing is again
    answered by a 500 with an error message: the entry is not skipped and
    no file is reported. *)
Theorem listing_fails_when_entry_vanishes dirname g fs :
  (forall e, Fs.resolve fs (uploadsDir dirname) = inl e ->
     listFilesDuring dirname g fs
     = (Ok (Response 500 (JsonError
              (message (SystemError e "scandir" (uploadsDir dirname))))), fs))
  /\ (forall content mtime,
        Fs.resolve fs (uploadsDir dirname) = inr (File content mtime) ->
        listFilesDuring dirname g fs
        = (Ok (Response 500 (JsonError
                 (message (SystemError ENOTDIR "scandir" (uploadsDir dirname))))),
           fs))
  /\ (forall size mtime file e,
        Fs.resolve fs (uploadsDir dirname) = inr (Directory size mtime) ->
        In file (Fs.names fs (Fs.segments (uploadsDir dirname))) ->
        JsString.endsWith file ".info" = false ->
        JsString.endsWith file ".json"
          && is_regular (g fs)
               (Path.join (uploadsDir dirname) (JsString.slice_end file 5)) = false ->
        Fs.resolve (g fs) (Path.join (uploadsDir dirname) file) = inl e ->
        exists e',
          listFilesDuring dirname g fs
          = (Ok (Response 500 (JsonError (message e'))), g fs)).
Proof.
  split; [|split].
  - intros e H. rewrite listFilesDuring_run, H. reflexivity.
  - intros content mtime H. rewrite listFilesDuring_run, H. reflexivity.
  - intros size mtime file e Hdir Hin Hinfo Hside Hgone.
    rewrite listFilesDuring_run, Hdir, listEntries_run.
    assert (Hthrow : fst (keepEntry dirname file (g fs))
              = Throw (SystemError e "stat" (Path.join (uploadsDir dirname) file))).
    { rewrite keepEntry_run by assumption. now rewrite Hside, Hgone. }
    destruct (filterM_throws _ _ _ _ _ (readonly_keepEntry dirname) Hin Hthrow)
      as [e' ->].
    exists e'. reflexivity.
Qed.

(** ** Paths of the auxiliary artifacts *)

Lemma split_nonempty sep s : JsString.split sep s <> [].
Proof.
  destruct s as [|c s]; simpl; [discriminate|].
  destruct (Ascii.eqb c sep); [discriminate|].
  destruct (JsString.split sep s); discriminate.
Qed.

(** Appending a separator-free text extends the last piece. *)
Lemma split_snoc sep (s t : string) :
  JsString.split sep t = [t] ->
  exists init l,
    JsString.split sep s = init ++ [l]
    /\ JsString.split sep (s ++ t) = init ++ [(l ++ t)%string].
Proof.
  intros Ht. induction s as [|c s [init [l [Hs Hst]]]].
  - exists [], EmptyString. now split.
  - simpl. rewrite Hs, Hst. destruct (Ascii.eqb c sep).
    + exists (EmptyString :: init), l. now split.
    + destruct init as [|h tl]; simpl.
      * exists [], (String c l). now split.
      * exists (String c h :: tl), l. now split.
Qed.

Lemma split_last_empty (s : string) init :
  JsString.split "/" s = init ++ [EmptyString] ->
  s = EmptyString \/ JsString.endsWith s "/" = true.
Proof.
  revert init. induction s as [|c s IH]; intros init H; [now left|right].
  rewrite endsWith_cons. simpl in H. destruct (Ascii.eqb c "/") eqn:Ec.
  - apply Ascii.eqb_eq in Ec as ->.
    destruct init as [|h init]; simpl in H.
    + injection H as H. now destruct (split_nonempty "/" s).
    + injection H as _ H. destruct (IH _ H) as [-> | ->]; [reflexivity|].
      apply orb_true_r.
  - destruct (JsString.split "/" s) as [|h tl] eqn:Es;
      [now destruct (split_nonempty "/" s)|].
    destruct init as [|h' init]; simpl in H; [discriminate|].
    injection H as _ H. subst tl. destruct (IH (h :: init) eq_refl) as [-> | ->].
    + simpl in Es. injection Es as _ Es. now destruct init.
    + apply orb_true_r.
Qed.

Lemma nonempty_append (l t : string) :
  t <> EmptyString -> Fs.nonempty (l ++ t) = true.
Proof. intros H. destruct l; simpl; [now destruct t|reflexivity]. Qed.

(** The key of [p ++ t] is the key of [p] with [t] appended to its last
    segment. *)
Lemma segments_suffix (p t : string) :
  p <> EmptyString -> JsString.endsWith p "/" = false ->
  JsString.split "/" t = [t] -> t <> EmptyString ->
  exists front l,
    Fs.segments p = front ++ [l]
    /\ Fs.segments (p ++ t) = front ++ [(l ++ t)%string].
Proof.
  intros Hp Hslash Ht Hne.
  destruct (split_snoc "/" p t Ht) as [init [l [Hs Hst]]].
  exists (List.filter Fs.nonempty init), l. unfold Fs.segments.
  rewrite Hs, Hst, !List.filter_app. simpl.
  rewrite (nonempty_append l t Hne).
  destruct l as [|c l]; [|now split].
  destruct (split_last_empty p init Hs); congruence.
Qed.

Lemma append_same_prefix_inj (l t t' : string) :
  (l ++ t)%string = (l ++ t')%string -> t = t'.
Proof. induction l; simpl; intros H; [assumption|injection H; auto]. Qed.

Lemma sibling_not_prefix (front : list string) (a b : string) :
  a <> b -> ~ (front ++ [a]) `prefix_of` (front ++ [b]).
Proof.
  intros Hab [k Hk]. rewrite <- app_assoc in Hk.
  apply app_inv_head in Hk. simpl in Hk. congruence.
Qed.

(** ** Deleting a key and resolving another path *)

Lemma walk_delete (fs : FS) K cur rest :
  ~ K `prefix_of` (cur ++ rest) ->
  Fs.walk (delete K fs) cur rest = Fs.walk fs cur rest.
Proof.
  revert cur. induction rest as [|s rest IH]; intros cur H.
  - simpl. rewrite lookup_delete_ne; [reflexivity|].
    intros ->. apply H. exists []. reflexivity.
  - simpl. rewrite lookup_delete_ne.
    + destruct (fs !! cur) as [[c m|sz m]|]; try reflexivity.
      apply IH. now rewrite <- app_assoc.
    + intros ->. apply H. now exists (s :: rest).
Qed.

Lemma resolve_delete (fs : FS) K p :
  ~ K `prefix_of` Fs.segments p ->
  Fs.resolve (delete K fs) p = Fs.resolve fs p.
Proof. intros H. unfold Fs.resolve. now rewrite walk_delete. Qed.

Lemma walk_lookup (fs : FS) cur rest n :
  Fs.walk fs cur rest = inr n -> fs !! (cur ++ rest) = Some n.
Proof.
  revert cur. induction rest as [|s rest IH]; intros cur; simpl.
  - rewrite app_nil_r. destruct (fs !! cur); congruence.
  - destruct (fs !! cur) as [[c m|sz m]|]; try discriminate.
    intros H. apply IH in H. now rewrite <- app_assoc in H.
Qed.

Lemma resolve_lookup (fs : FS) p n :
  Fs.resolve fs p = inr n -> fs !! Fs.segments p = Some n.
Proof.
  unfold Fs.resolve. intros H. apply (walk_lookup fs [] (Fs.segments p)).
  destruct (Fs.walk fs [] (Fs.segments p)) as [e|[c m|s m]]; try congruence.
  destruct (JsString.endsWith p "/"); congruence.
Qed.

Lemma resolve_absent (fs : FS) p :
  fs !! Fs.segments p = None -> exists e, Fs.resolve fs p = inl e.
Proof.
  intros H. destruct (Fs.resolve fs p) as [e|n] eqn:E; [eauto|].
  apply resolve_lookup in E. congruence.
Qed.

Lemma resolve_file_no_slash (fs : FS) p c m :
  Fs.resolve fs p = inr (File c m) -> JsString.endsWith p "/" = false.
Proof.
  unfold Fs.resolve.
  destruct (Fs.walk fs [] (Fs.segments p)) as [e|[c' m'|s m']]; try discriminate.
  now destruct (JsString.endsWith p "/").
Qed.

Lemma normalize_nonempty p : Path.normalize p <> EmptyString.
Proof.
  unfold Path.normalize. destruct (String.eqb p ""); [discriminate|].
  destruct (String.eqb_spec
    (Path.unsplit (Path.normalizeString (negb (Path.isAbsolute p))
                     (JsString.split "/" p))) "") as [_|Hbody].
  - destruct (Path.isAbsolute p); [discriminate|].
    destruct (JsString.endsWith p "/"); discriminate.
  - destruct (Path.isAbsolute p); [discriminate|]. simpl.
    destruct (Path.unsplit _); [congruence|discriminate].
Qed.

Lemma join_nonempty a b : Path.join a b <> EmptyString.
Proof.
  unfold Path.join.
  destruct (String.eqb a ""), (String.eqb b "");
    try apply normalize_nonempty; discriminate.
Qed.

(** ** The delete handler, case by case *)

(** The optional removal of one auxiliary artifact, followed by [k]. *)
Lemma cleanup_run {A} (q : string) (k : Fs.M A) (fs : FS) :
  (has <- Fs.existsSync q ;;
   (if has : bool then Fs.unlinkSync q else Fs.ret tt) ;;;
   k) fs
  = match Fs.resolve fs q with
    | inr (File _ _) => k (delete (Fs.segments q) fs)
    | inr (Directory _ _) => (Throw (SystemError EISDIR "unlink" q), fs)
    | inl _ => k fs
    end.
Proof.
  unfold Fs.bind, Fs.existsSync, Fs.unlinkSync.
  destruct (Fs.resolve fs q) as [e|[c m|s m]] eqn:E; simpl; try reflexivity;
    now rewrite E.
Qed.

Lemma deleteFile_run dirname param fs :
  deleteFile dirname param fs
  = match URI.decodeURIComponent param with
    | Throw e => (Ok (Response 500 (JsonError (message e))), fs)
    | Ok filename =>
        let p := Path.join (uploadsDir dirname) filename in
        match Fs.resolve fs p with
        | inl _ => (Ok notFound, fs)
        | inr (Directory _ _) => (Ok (unlinkFailed p), fs)
        | inr (File _ _) =>
            let fs1 := delete (Fs.segments p) fs in
            if is_directory fs1 (p ++ ".info")
            then (Ok (unlinkFailed (p ++ ".info")), fs1)
            else
              let fs2 := after_cleanup (p ++ ".info") fs1 in
              if is_directory fs2 (p ++ ".json")
              then (Ok (unlinkFailed (p ++ ".json")), fs2)
              else (Ok deleted, after_cleanup (p ++ ".json") fs2)
        end
    end.
Proof.
  unfold deleteFile, Fs.try_catch. unfold Fs.bind at 1. unfold Fs.lift.
  destruct (URI.decodeURIComponent param) as [filename|e]; [|reflexivity].
  cbv zeta. set (p := Path.join (uploadsDir dirname) filename).
  unfold Fs.bind at 1. unfold Fs.existsSync at 1.
  destruct (Fs.resolve fs p) as [e|[c m|s m]] eqn:E; simpl; [reflexivity| |].
  - unfold Fs.bind at 1. unfold Fs.unlinkSync at 1. rewrite E.
    rewrite (cleanup_run (p ++ ".info")).
    unfold is_directory, after_cleanup, is_regular.
    destruct (Fs.resolve (delete (Fs.segments p) fs) (p ++ ".info"))
      as [e1|[c1 m1|s1 m1]]; try reflexivity;
      rewrite (cleanup_run (p ++ ".json"));
      match goal with
      | |- context [Fs.resolve ?f (p ++ ".json")] =>
          destruct (Fs.resolve f (p ++ ".json")) as [e2|[c2 m2|s2 m2]]
      end; reflexivity.
  - unfold Fs.bind at 1. unfold Fs.unlinkSync at 1. rewrite E. reflexivity.
Qed.

Lemma append_suffix_neq (l : string) : l <> (l ++ ".info")%string
  /\ l <> (l ++ ".json")%string
  /\ (l ++ ".info")%string <> (l ++ ".json")%string.
Proof.
  repeat split; intros H.
  - apply (f_equal String.length) in H. rewrite length_append in H. simpl in H. lia.
  - apply (f_equal String.length) in H. rewrite length_append in H. simpl in H. lia.
  - apply append_same_prefix_inj in H. discriminate.
Qed.

(** The keys of a regular file and of its two auxiliary paths are three
    different entries of the same directory. *)
Lemma auxiliary_keys (fs : FS) p c m :
  p <> EmptyString -> Fs.resolve fs p = inr (File c m) ->
  exists front l,
    Fs.segments p = front ++ [l]
    /\ Fs.segments (p ++ ".info") = front ++ [(l ++ ".info")%string]
    /\ Fs.segments (p ++ ".json") = front ++ [(l ++ ".json")%string].
Proof.
  intros Hp Hfile. apply resolve_file_no_slash in Hfile.
  destruct (segments_suffix p ".info" Hp Hfile eq_refl) as [f1 [l1 [H1 H1']]];
    [discriminate|].
  destruct (segments_suffix p ".json" Hp Hfile eq_refl) as [f2 [l2 [H2 H2']]];
    [discriminate|].
  rewrite H1 in H2. apply app_inj_tail in H2 as [<- <-]. eauto.
Qed.

(** Deleting a regular file, with every test read off the directory
    as it was before the call. *)
Lemma deleteFile_regular dirname param filename fs c m :
  URI.decodeURIComponent param = Ok filename ->
  let p := Path.join (uploadsDir dirname) filename in
  Fs.resolve fs p = inr (File c m) ->
  deleteFile dirname param fs
  = let fs1 := delete (Fs.segments p) fs in
    if is_directory fs (p ++ ".info")
    then (Ok (unlinkFailed (p ++ ".info")), fs1)
    else
      let fs2 := remove_regular fs (p ++ ".info") fs1 in
      if is_directory fs (p ++ ".json")
      then (Ok (unlinkFailed (p ++ ".json")), fs2)
      else (Ok deleted, remove_regular fs (p ++ ".json") fs2).
Proof.
  intros Hdec p Hfile. rewrite deleteFile_run, Hdec. cbv zeta. fold p.
  rewrite Hfile.
  destruct (auxiliary_keys fs p c m (join_nonempty _ _) Hfile)
    as [front [l [Kp [Ki Kj]]]].
  destruct (append_suffix_neq l) as [Npi [Npj Nij]].
  assert (Ri : Fs.resolve (delete (Fs.segments p) fs) (p ++ ".info")
               = Fs.resolve fs (p ++ ".info")).
  { apply resolve_delete. rewrite Kp, Ki. now apply sibling_not_prefix. }
  assert (Rj : Fs.resolve (delete (Fs.segments p) fs) (p ++ ".json")
               = Fs.resolve fs (p ++ ".json")).
  { apply resolve_delete. rewrite Kp, Kj. now apply sibling_not_prefix. }
  assert (Rij : forall f, Fs.resolve (delete (Fs.segments (p ++ ".info")) f) (p ++ ".json")
               = Fs.resolve f (p ++ ".json")).
  { intros f. apply resolve_delete. rewrite Ki, Kj. now apply sibling_not_prefix. }
  unfold is_directory, after_cleanup, remove_regular, is_regular.
  rewrite Ri. destruct (Fs.resolve fs (p ++ ".info")) as [e1|[c1 m1|s1 m1]];
    try reflexivity; rewrite ?Rij, Rj; reflexivity.
Qed.

Lemma lookup_remove_regular (fs0 fs : FS) q K :
  fs !! K = None -> remove_regular fs0 q fs !! K = None.
Proof.
  intros H. unfold remove_regular. destruct (is_regular fs0 q); [|assumption].
  apply lookup_delete_None. now right.
Qed.

Lemma deleteFile_absent dirname fs param filename :
  URI.decodeURIComponent param = Ok filename ->
  exists_path fs (Path.join (uploadsDir dirname) filename) = false ->
  deleteFile dirname param fs = (Ok notFound, fs).
Proof.
  intros Hdec H. rewrite deleteFile_run, Hdec. cbv zeta.
  unfold exists_path in H.
  now destruct (Fs.resolve fs (Path.join (uploadsDir dirname) filename)).
Qed.

(** C1 (amended). When the decoded name resolves to nothing in the upload
    directory, the delete answers 404 with [File not found] and leaves the
    file system as it was.  When it resolves to a directory, the unlink
    throws and the answer is a 500 carrying the error message; the file
    system is again left as it was. *)
Theorem delete_without_regular_primary dirname fs param filename :
  URI.decodeURIComponent param = Ok filename ->
  let p := Path.join (uploadsDir dirname) filename in
  (exists_path fs p = false ->
     deleteFile dirname param fs
     = (Ok (Response 404 (JsonError "File not found")), fs))
  /\ (is_directory fs p = true ->
        deleteFile dirname param fs
        = (Ok (Response 500 (JsonError (message (SystemError EISDIR "unlink" p)))),
           fs)).
Proof.
  intros Hdec p. split; intros H.
  - now apply (deleteFile_absent dirname fs param filename).
  - rewrite deleteFile_run, Hdec. cbv zeta. fold p. unfold is_directory in H.
    destruct (Fs.resolve fs p) as [e|[c m|s m]]; try discriminate; reflexivity.
Qed.

(** C2 (amended). For a primary that is a regular file, a failing
    removal of an auxiliary artifact (its path is a directory, so the
    unlink throws) makes the whole call answer 500 with the error message,
    although the primary has already been removed; nothing in the answer
    tells the two apart from any other failure.  An absent auxiliary
    artifact is no failure. *)
Theorem auxiliary_failure_fails_delete dirname fs param filename c m :
  URI.decodeURIComponent param = Ok filename ->
  let p := Path.join (uploadsDir dirname) filename in
  let info := (p ++ ".info")%string in
  let json := (p ++ ".json")%string in
  Fs.resolve fs p = inr (File c m) ->
  (is_directory fs info = true ->
     deleteFile dirname param fs
     = (Ok (Response 500 (JsonError (message (SystemError EISDIR "unlink" info)))),
        delete (Fs.segments p) fs))
  /\ (is_directory fs info = false -> is_directory fs json = true ->
        deleteFile dirname param fs
        = (Ok (Response 500 (JsonError (message (SystemError EISDIR "unlink" json)))),
           remove_regular fs info (delete (Fs.segments p) fs)))
  /\ (exists_path fs info = false -> exists_path fs json = false ->
        deleteFile dirname param fs
        = (Ok (Response 200 (JsonMessage "File deleted successfully")),
           delete (Fs.segments p) fs)).
Proof.
  intros Hdec p info json Hfile.
  rewrite (deleteFile_regular dirname param filename fs c m Hdec Hfile).
  cbv zeta. fold p info json. repeat split.
  - intros ->. reflexivity.
  - intros -> ->. reflexivity.
  - unfold exists_path, is_directory, remove_regular, is_regular.
    intros Hi Hj.
    destruct (Fs.resolve fs info) as [e1|n1]; [|discriminate].
    destruct (Fs.resolve fs json) as [e2|n2]; [|discriminate]. reflexivity.
Qed.

Lemma resolve_remove_regular (fs0 fs : FS) q q' :
  ~ Fs.segments q `prefix_of` Fs.segments q' ->
  Fs.resolve (remove_regular fs0 q fs) q' = Fs.resolve fs q'.
Proof.
  intros H. unfold remove_regular. destruct (is_regular fs0 q); [|reflexivity].
  now apply resolve_delete.
Qed.

Lemma exists_path_absent (fs : FS) p :
  fs !! Fs.segments p = None -> exists_path fs p = false.
Proof.
  intros H. unfold exists_path. now destruct (resolve_absent fs p H) as [e ->].
Qed.

(** A name can only be listed when it resolves to a regular file. *)
Lemma listed_is_regular dirname fs file :
  listed file (fst (listFiles dirname fs)) ->
  is_regular fs (Path.join (uploadsDir dirname) file) = true.
Proof.
  rewrite listFiles_quiet. intros H.
  apply listed_listFilesDuring in H as [_ H].
  destruct (JsString.endsWith file ".info") eqn:Hinfo.
  - rewrite keepEntry_info in H by assumption. discriminate.
  - rewrite keepEntry_run in H by assumption.
    destruct (JsString.endsWith file ".json" && _); [discriminate|].
    simpl in H. unfold is_regular.
    destruct (Fs.resolve fs (Path.join (uploadsDir dirname) file)) as [e|[c m|s m]];
      simpl in H; congruence.
Qed.

(** C8 (amended). For a name whose primary is a regular file and whose two
    auxiliary paths are not directories, the delete removes the primary,
    then the [.info] and the [.json] artifact where there is one (a
    missing one is no error), and answers 200.  Afterwards none of the
    three paths exists, the name is in no listing, and deleting the same
    name again answers 404. *)
Theorem delete_removes_primary_and_auxiliaries dirname fs param filename c m :
  URI.decodeURIComponent param = Ok filename ->
  let p := Path.join (uploadsDir dirname) filename in
  let info := (p ++ ".info")%string in
  let json := (p ++ ".json")%string in
  Fs.resolve fs p = inr (File c m) ->
  is_directory fs info = false ->
  is_directory fs json = false ->
  let fs' := remove_regular fs json (remove_regular fs info (delete (Fs.segments p) fs)) in
  deleteFile dirname param fs
  = (Ok (Response 200 (JsonMessage "File deleted successfully")), fs')
  /\ exists_path fs' p = false
  /\ exists_path fs' info = false
  /\ exists_path fs' json = false
  /\ ~ listed filename (fst (listFiles dirname fs'))
  /\ deleteFile dirname param fs'
     = (Ok (Response 404 (JsonError "File not found")), fs').
Proof.
  intros Hdec p info json Hfile Hi Hj fs'.
  assert (Hgone : exists_path fs' p = false).
  { apply exists_path_absent. unfold fs'.
    do 2 apply lookup_remove_regular. apply lookup_delete_eq. }
  destruct (auxiliary_keys fs p c m (join_nonempty _ _) Hfile)
    as [front [l [Kp [Ki Kj]]]]. fold info in Ki. fold json in Kj.
  destruct (append_suffix_neq l) as [Npi [Npj Nij]].
  split; [|split; [exact Hgone|split; [|split; [|split]]]].
  - rewrite (deleteFile_regular dirname param filename fs c m Hdec Hfile).
    cbv zeta. fold p info json. now rewrite Hi, Hj.
  - unfold fs', remove_regular at 2.
    unfold is_directory in Hi. unfold is_regular.
    destruct (Fs.resolve fs info) as [e|[c1 m1|s1 m1]] eqn:E; [| |discriminate].
    + unfold exists_path. rewrite resolve_remove_regular, resolve_delete, E;
        [reflexivity| |]; rewrite ?Kp, ?Ki, ?Kj; apply sibling_not_prefix;
        congruence.
    + apply exists_path_absent, lookup_remove_regular, lookup_delete_eq.
  - unfold fs', remove_regular at 1.
    unfold is_directory in Hj. unfold is_regular.
    destruct (Fs.resolve fs json) as [e|[c1 m1|s1 m1]] eqn:E; [| |discriminate].
    + unfold exists_path. rewrite resolve_remove_regular, resolve_delete, E;
        [reflexivity| |]; rewrite ?Kp, ?Ki, ?Kj; apply sibling_not_prefix;
        congruence.
    + apply exists_path_absent, lookup_delete_eq.
  - intros L. apply listed_is_regular in L. fold p in L.
    unfold exists_path in Hgone. unfold is_regular in L.
    destruct (Fs.resolve fs' p); congruence.
  - now apply (deleteFile_absent dirname fs' param filename).
Qed.

(** ** The naming function *)

Lemma metadata_item_valued item obj :
  has_value item = true ->
  metadata_item item obj = Ok (set_property (item_key item) (item_value item) obj).
Proof.
  unfold has_value, metadata_item, item_key, item_value.
  destruct (JsString.split " " item) as [|k [|v rest]]; try discriminate.
  reflexivity.
Qed.

Lemma metadata_item_unvalued item obj :
  has_value item = false -> exists msg, metadata_item item obj = Throw (TypeError msg).
Proof.
  unfold has_value, metadata_item.
  destruct (JsString.split " " item) as [|k [|v rest]]; try discriminate;
    simpl; eauto.
Qed.

Lemma forEach_item_valued items obj :
  Forall (fun item => has_value item = true) items ->
  forEach_item items obj = Ok (store_all items obj).
Proof.
  intros H. revert obj. induction H as [|item items Hi _ IH]; intros obj;
    [reflexivity|].
  simpl. rewrite metadata_item_valued by assumption. apply IH.
Qed.

(** A pair without a value part ends the traversal with a [TypeError]. *)
Lemma forEach_item_unvalued items obj :
  Exists (fun item => has_value item = false) items ->
  exists msg, forEach_item items obj = Throw (TypeError msg).
Proof.
  intros H. revert obj. induction items as [|item items IH]; intros obj;
    [inversion H|].
  simpl. destruct (has_value item) eqn:Hv.
  - rewrite metadata_item_valued by assumption. apply IH.
    inversion H; subst; [congruence|assumption].
  - destruct (metadata_item_unvalued item obj Hv) as [msg ->]. eauto.
Qed.

Lemma namingFunction_unvalued now md :
  Exists (fun item => has_value item = false) (JsString.split "," md) ->
  md <> EmptyString ->
  exists msg, namingFunction now (Some md) = Throw (TypeError msg).
Proof.
  intros H Hmd. unfold namingFunction. destruct md as [|c md]; [congruence|].
  cbn [JsString.truthy].
  destruct (forEach_item_unvalued _ ∅ H) as [msg ->]. eauto.
Qed.

Lemma set_property_lookup k v (obj : gmap string string) key :
  key <> "__proto__" ->
  set_property k v obj !! key = if String.eqb k key then Some v else obj !! key.
Proof.
  intros Hkey. unfold set_property.
  destruct (String.eqb_spec k "__proto__") as [->|Hk].
  - destruct (String.eqb_spec "__proto__" key); congruence.
  - destruct (String.eqb_spec k key) as [->|Hne].
    + apply lookup_insert_eq.
    + now apply lookup_insert_ne.
Qed.

(** Reading a key of the object gives the last pair written under it. *)
Lemma store_all_lookup items (obj : gmap string string) key :
  key <> "__proto__" ->
  store_all items obj !! key = last_value_from key items (obj !! key).
Proof.
  intros Hkey. revert obj. induction items as [|item items IH]; intros obj;
    [reflexivity|].
  unfold store_all, last_value_from in *. simpl. rewrite IH.
  now rewrite set_property_lookup.
Qed.



Lemma namingFunction_valued now md :
  md <> EmptyString ->
  Forall (fun item => has_value item = true) (JsString.split "," md) ->
  namingFunction now (Some md) = Ok (chosen_name now (JsString.split "," md)).
Proof.
  intros Hmd Hall. unfold namingFunction, chosen_name, last_value.
  destruct md as [|c md]; [congruence|]. cbn [JsString.truthy].
  rewrite forEach_item_valued by assumption.
  rewrite store_all_lookup by discriminate. rewrite lookup_empty.
  now destruct (last_value_from "filename" _ None) as [[|]|].
Qed.


(** C7 (amended). Without a header, or with an empty one, the naming
    function returns [file-<now>].  With a header whose pairs all have a
    value part, it returns the decoded value of the last [filename] pair
    as it is when that value is not empty, and [file-<now>] when there is
    no [filename] pair or its value is empty. *)
Theorem naming_selects_last_filename now :
  namingFunction now None = Ok ("file-" ++ pretty now)%string
  /\ namingFunction now (Some EmptyString) = Ok ("file-" ++ pretty now)%string
  /\ forall md,
       md <> EmptyString ->
       Forall (fun item => has_value item = true) (JsString.split "," md) ->
       (forall name,
          last_value "filename" (JsString.split "," md) = Some name ->
          name <> EmptyString ->
          namingFunction now (Some md) = Ok name)
       /\ (last_value "filename" (JsString.split "," md) = None
           \/ last_value "filename" (JsString.split "," md) = Some EmptyString ->
           namingFunction now (Some md) = Ok ("file-" ++ pretty now)%string).
Proof.
  repeat split.
  - intros name Hlast Hname. rewrite namingFunction_valued by assumption.
    unfold chosen_name. rewrite Hlast. now destruct name.
  - intros Hlast. rewrite namingFunction_valued by assumption.
    unfold chosen_name. now destruct Hlast as [-> | ->].
Qed.

(** ** The gateway *)

(** C10. When the engine has written no response headers, the gateway
    answers 404 [Not found] if the engine returned normally, and 500
    [Internal server error] with the message of the error if it threw. *)
Theorem gateway_answers_for_silent_engine o :
  headersSent o = false ->
  (engine_error o = None ->
     filesGateway o = Response 404 (JsonError "Not found"))
  /\ (forall error, engine_error o = Some error ->
        filesGateway o
        = Response 500 (JsonErrorDetails "Internal server error" (message error))).
Proof.
  unfold headersSent, filesGateway. intros H.
  destruct (engine_response o); [discriminate|].
  split; [intros ->|intros error ->]; reflexivity.
Qed.

(** ** Names that leave the upload directory *)

(** C5. The name [..%2Fserver.js] decodes to [../server.js]; joined to
    the upload directory it is the path of [server.js] next to that
    directory, which is not below it.  The download handler sends that
    file and the delete handler removes it. *)
Theorem unconfined_name_reaches_outside_file :
  exists param filename,
    URI.decodeURIComponent param = Ok filename
    /\ let p := Path.join (uploadsDir app_root) filename in
       ~ Fs.segments (uploadsDir app_root) `prefix_of` Fs.segments p
       /\ base_fs !! Fs.segments p = Some (File "const express" 5)
       /\ fst (downloadFile app_root param base_fs)
          = Ok (Response 200 (Attachment filename "const express"))
       /\ fst (deleteFile app_root param base_fs)
          = Ok (Response 200 (JsonMessage "File deleted successfully"))
       /\ snd (deleteFile app_root param base_fs) !! Fs.segments p = None.
Proof.
  exists "..%2Fserver.js", "../server.js".
  split; [reflexivity|]. cbv zeta. split; [|repeat split; vm_compute; reflexivity].
  intros [k Hk]. vm_compute in Hk. discriminate.
Qed.

(** ** Concrete runs *)

(** [report.json] is listed while there is no [report], and is hidden by
    the next listing once a regular file [report] is there. *)
Lemma report_json_reclassified :
  listed "report.json" (fst (listFiles app_root video_fs))
  /\ ~ listed "report.json"
       (fst (listFiles app_root (<[up "report" := File "text" 14]> video_fs))).
Proof.
  split; [vm_compute; auto|]. intros H. vm_compute in H. intuition discriminate.
Qed.

Lemma naming_throws_without_value :
  namingFunction 1700000000000 (Some "filename dGVzdC50eHQ=,checksum")
  = Throw (TypeError
      "The first argument must be of type string or an instance of Buffer, ArrayBuffer, or Array or an Array-like Object. Received undefined").
Proof. vm_compute. reflexivity. Qed.


(** C7, as stated, fails: the header has a [filename] pair whose value
    decodes to the empty text, and the synthesized name is returned
    instead of that value. *)
Lemma empty_filename_value_is_replaced :
  last_value "filename" (JsString.split "," "filename ,note YQ==") = Some EmptyString
  /\ namingFunction 1700000000000 (Some "filename ,note YQ==")
     = Ok "file-1700000000000".
Proof. split; vm_compute; reflexivity. Qed.

(** C1, as stated, fails: the name of a directory is answered with 500
    and the text of the unlink error, not with 404. *)
Lemma delete_directory_answers_500 :
  is_directory album_fs "/srv/store/uploads/album" = true
  /\ deleteFile app_root "album" album_fs
     = (Ok (Response 500 (JsonError
          "EISDIR: illegal operation on a directory, unlink '/srv/store/uploads/album'")),
        album_fs).
Proof. split; vm_compute; reflexivity. Qed.

(** C2, as stated, fails: the primary is removed, the removal of the
    [.json] entry throws, and the call is answered with 500. *)
Lemma auxiliary_failure_answers_500 :
  is_regular clip_fs "/srv/store/uploads/clip.mov" = true
  /\ deleteFile app_root "clip.mov" clip_fs
     = (Ok (Response 500 (JsonError
          "EISDIR: illegal operation on a directory, unlink '/srv/store/uploads/clip.mov.json'")),
        delete (up "clip.mov") clip_fs).
Proof. split; vm_compute; reflexivity. Qed.

(** C3, as stated, fails: [b.txt] is removed right after the enumeration;
    the listing is answered with 500 instead of reporting [a.txt], which
    a listing of the directory after the removal does report. *)
Lemma vanished_entry_fails_listing :
  listFilesDuring app_root (delete (up "b.txt")) race_fs
  = (Ok (Response 500 (JsonError
       "ENOENT: no such file or directory, stat '/srv/store/uploads/b.txt'")),
     delete (up "b.txt") race_fs)
  /\ fst (listFiles app_root (delete (up "b.txt") race_fs))
     = Ok (Response 200 (JsonFiles [FileEntry "a.txt" 1 1 "/api/files/a.txt"])).
Proof. split; vm_compute; reflexivity. Qed.

(** C6, as stated, fails: [d.json] is an entry of the directory, there is
    no [d], and the entry is not in the listing, because it is a
    directory. *)
Lemma sidecar_named_directory_is_not_listed :
  In "d.json" (Fs.entries json_dir_fs (Fs.segments (uploadsDir app_root)))
  /\ JsString.endsWith "d.json" ".json" = true
  /\ exists_path json_dir_fs (Path.join (uploadsDir app_root) "d") = false
  /\ fst (listFiles app_root json_dir_fs) = Ok (Response 200 (JsonFiles []))
  /\ ~ listed "d.json" (fst (listFiles app_root json_dir_fs)).
Proof.
  split; [vm_compute; auto|]. repeat split; try (vm_compute; reflexivity).
  intros H. vm_compute in H. exact H.
Qed.

(** C8, as stated, fails: the primary and both auxiliary entries are
    there, the [.info] entry is a directory, and after the call the
    [.json] artifact is still in place. *)
Lemma auxiliary_left_behind :
  is_regular stuck_fs "/srv/store/uploads/video.mp4" = true
  /\ is_regular stuck_fs "/srv/store/uploads/video.mp4.json" = true
  /\ fst (deleteFile app_root "video.mp4" stuck_fs)
     = Ok (Response 500 (JsonError
         "EISDIR: illegal operation on a directory, unlink '/srv/store/uploads/video.mp4.info'"))
  /\ is_regular (snd (deleteFile app_root "video.mp4" stuck_fs))
       "/srv/store/uploads/video.mp4.json" = true.
Proof. repeat split; vm_compute; reflexivity. Qed.

(** ** The theorems at concrete inputs *)

(** Deleting a name that has only a progress artifact. *)
Lemma delete_without_regular_primary_witness :
  deleteFile app_root "ghost.txt" orphan_fs
  = (Ok (Response 404 (JsonError "File not found")), orphan_fs).
Proof.
  refine (proj1 (delete_without_regular_primary app_root orphan_fs
                   "ghost.txt" "ghost.txt" eq_refl) _).
  vm_compute. reflexivity.
Defined.

(** Deleting an upload whose [.json] path is a directory. *)
Lemma auxiliary_failure_fails_delete_witness :
  let p := Path.join (uploadsDir app_root) "clip.mov" in
  deleteFile app_root "clip.mov" clip_fs
  = (Ok (Response 500 (JsonError
           (message (SystemError EISDIR "unlink" (p ++ ".json"))))),
     remove_regular clip_fs (p ++ ".info") (delete (Fs.segments p) clip_fs)).
Proof.
  intros p.
  refine (proj1 (proj2 (auxiliary_failure_fails_delete app_root clip_fs
                          "clip.mov" "clip.mov" "MOV" 20 eq_refl _)) _ _);
    vm_compute; reflexivity.
Defined.

(** [b.txt] vanishes after the enumeration. *)
Lemma listing_fails_when_entry_vanishes_witness :
  exists e',
    listFilesDuring app_root (delete (up "b.txt")) race_fs
    = (Ok (Response 500 (JsonError (message e'))), delete (up "b.txt") race_fs).
Proof.
  refine (proj2 (proj2 (listing_fails_when_entry_vanishes app_root
                          (delete (up "b.txt")) race_fs))
                4096%nat 0%Z "b.txt" ENOENT _ _ _ _ _);
    vm_compute; auto.
Defined.


(** [report.json] without a [report] is kept by the filter. *)
Lemma sidecar_hidden_iff_primary_regular_witness :
  keepEntry app_root "report.json" video_fs = (Ok true, video_fs).
Proof.
  refine (proj1 (sidecar_hidden_iff_primary_regular app_root video_fs
                   "report" "{}" 13 _ _)).
  - vm_compute. auto.
  - vm_compute. reflexivity.
Defined.

(** The header of the upload of [test.txt]. *)
Lemma naming_selects_last_filename_witness :
  namingFunction 1700000000000 (Some "filename dGVzdC50eHQ=") = Ok "test.txt".
Proof.
  refine (proj1 (proj2 (proj2 (naming_selects_last_filename 1700000000000))
                   "filename dGVzdC50eHQ=" _ _) "test.txt" _ _).
  - discriminate.
  - vm_compute. repeat constructor.
  - vm_compute. reflexivity.
  - discriminate.
Defined.

(** Deleting [video.mp4] with both of its artifacts. *)
Lemma delete_removes_primary_and_auxiliaries_witness :
  let p := Path.join (uploadsDir app_root) "video.mp4" in
  let fs' := remove_regular video_fs (p ++ ".json")
               (remove_regular video_fs (p ++ ".info")
                  (delete (Fs.segments p) video_fs)) in
  deleteFile app_root "video.mp4" video_fs
  = (Ok (Response 200 (JsonMessage "File deleted successfully")), fs')
  /\ fs' = <[up "report.json" := File "{}" 13]> base_fs.
Proof.
  intros p fs'. split.
  - refine (proj1 (delete_removes_primary_and_auxiliaries app_root video_fs
                     "video.mp4" "video.mp4" "MP4DATA" 10 eq_refl _ _ _));
      vm_compute; reflexivity.
  - vm_compute. reflexivity.
Defined.

(** A progress artifact without a primary. *)
Lemma info_entries_never_listed_witness :
  ~ listed "ghost.txt.info" (fst (listFiles app_root orphan_fs)).
Proof.
  refine (proj1 (proj2 (info_entries_never_listed app_root (fun d => d)
                          orphan_fs "ghost.txt.info" _))).
  vm_compute. reflexivity.
Defined.

(** The engine threw before writing anything. *)
Lemma gateway_answers_for_silent_engine_witness :
  filesGateway (EngineOutcome None (Some (TypeError "boom")))
  = Response 500 (JsonErrorDetails "Internal server error" "boom").
Proof.
  refine (proj2 (gateway_answers_for_silent_engine
                   (EngineOutcome None (Some (TypeError "boom"))) _)
                (TypeError "boom") _); reflexivity.
Defined.

(** * Further properties of the handlers *)

(** ** The download handler *)

Lemma readonly_setHeader field value : readonly (setHeader field value).
Proof. intros fs. unfold setHeader. now destruct (existsb _ _). Qed.

Lemma readonly_pipeFile filename p : readonly (pipeFile filename p).
Proof.
  intros fs. unfold pipeFile. now destruct (Fs.resolve fs p) as [e|[c m|s m]].
Qed.

Lemma readonly_try_catch {A} (m : Fs.M A) h :
  readonly m -> (forall e, readonly (h e)) -> readonly (Fs.try_catch m h).
Proof.
  intros Hm Hh fs. unfold Fs.try_catch. specialize (Hm fs).
  destruct (m fs) as [[a|e] fs']; simpl in *; subst; [reflexivity|apply Hh].
Qed.

Lemma readonly_lift {A} (r : result A) : readonly (Fs.lift r).
Proof. intros fs. reflexivity. Qed.

Lemma readonly_internalError e : readonly (internalError e).
Proof. intros fs. reflexivity. Qed.

(** X1. The download handler never changes the file system, whatever the
    parameter and whatever it answers. *)
Theorem download_changes_nothing dirname param fs :
  snd (downloadFile dirname param fs) = fs.
Proof.
  revert fs. change (readonly (downloadFile dirname param)). unfold downloadFile.
  apply readonly_bind.
  - unfold startDownload. apply readonly_try_catch.
    + apply readonly_bind; [apply readonly_lift|intros filename].
      apply readonly_bind; [apply readonly_existsSync|intros present].
      destruct present; simpl; [|apply readonly_ret].
      apply readonly_bind; [apply readonly_setHeader|intros _].
      apply readonly_bind; [apply readonly_setHeader|intros _].
      apply readonly_ret.
    + intros e. apply readonly_bind; [apply readonly_internalError|].
      intros res. apply readonly_ret.
  - intros [res|[filename filePath]]; [apply readonly_ret|apply readonly_pipeFile].
Qed.

Lemma chars_append (a b : string) :
  list_ascii_of_string (a ++ b)
  = (list_ascii_of_string a ++ list_ascii_of_string b)%list.
Proof. induction a as [|c a IH]; simpl; [reflexivity|now rewrite IH]. Qed.

(** The header value built around a name is refused exactly when the name
    has a refused byte. *)
Lemma disposition_refused filename :
  existsb invalid_header_byte
    (list_ascii_of_string ("attachment; filename=" ++ dquote ++ filename ++ dquote))
  = negb (header_safe filename).
Proof.
  unfold header_safe. rewrite negb_involutive.
  assert (E1 : existsb invalid_header_byte
                 (list_ascii_of_string "attachment; filename=") = false)
    by reflexivity.
  assert (E2 : existsb invalid_header_byte (list_ascii_of_string dquote) = false)
    by reflexivity.
  rewrite !chars_append, !existsb_app, E1, E2. simpl. apply orb_false_r.
Qed.

(** The [try] block of the download handler, case by case. *)
Lemma startDownload_run dirname param fs :
  startDownload dirname param fs
  = (Ok (match URI.decodeURIComponent param with
         | Throw e => inl (Response 500 (JsonError (message e)))
         | Ok filename =>
             let p := Path.join (uploadsDir dirname) filename in
             match Fs.resolve fs p with
             | inl _ => inl (Response 404 (JsonError "File not found"))
             | inr _ =>
                 if header_safe filename then inr (filename, p)
                 else inl (Response 500 (JsonError
                             ("Invalid character in header content [" ++ dquote
                              ++ "Content-Disposition" ++ dquote ++ "]")))
             end
         end), fs).
Proof.
  unfold startDownload, Fs.try_catch. unfold Fs.bind at 1. unfold Fs.lift.
  destruct (URI.decodeURIComponent param) as [filename|e]; [|reflexivity].
  cbv zeta. set (p := Path.join (uploadsDir dirname) filename).
  unfold Fs.bind at 1. unfold Fs.existsSync at 1.
  destruct (Fs.resolve fs p) as [e|n] eqn:E; simpl; [reflexivity|].
  unfold Fs.bind at 1. unfold setHeader at 1. rewrite disposition_refused.
  destruct (header_safe filename); reflexivity.
Qed.

(** The download handler, case by case. *)
Lemma downloadFile_run dirname param fs :
  downloadFile dirname param fs
  = (match URI.decodeURIComponent param with
     | Throw e => Ok (Response 500 (JsonError (message e)))
     | Ok filename =>
         let p := Path.join (uploadsDir dirname) filename in
         match Fs.resolve fs p with
         | inl _ => Ok (Response 404 (JsonError "File not found"))
         | inr n =>
             if header_safe filename then
               match n with
               | File content _ => Ok (Response 200 (Attachment filename content))
               | Directory _ _ => Throw (SystemError EISDIR "read" p)
               end
             else Ok (Response 500 (JsonError
                        ("Invalid character in header content [" ++ dquote
                         ++ "Content-Disposition" ++ dquote ++ "]")))
         end
     end, fs).
Proof.
  unfold downloadFile, Fs.bind. rewrite startDownload_run.
  destruct (URI.decodeURIComponent param) as [filename|e]; [|reflexivity].
  cbv zeta. set (p := Path.join (uploadsDir dirname) filename).
  destruct (Fs.resolve fs p) as [e|n] eqn:E; [reflexivity|].
  destruct (header_safe filename); [|reflexivity].
  unfold pipeFile. rewrite E. now destruct n.
Qed.

(** X2. A name that resolves to nothing in the upload directory is
    answered with 404 and [File not found]. *)
Theorem download_absent_is_404 dirname param filename fs :
  URI.decodeURIComponent param = Ok filename ->
  exists_path fs (Path.join (uploadsDir dirname) filename) = false ->
  downloadFile dirname param fs
  = (Ok (Response 404 (JsonError "File not found")), fs).
Proof.
  intros Hdec H. rewrite downloadFile_run, Hdec. cbv zeta.
  unfold exists_path in H.
  now destruct (Fs.resolve fs (Path.join (uploadsDir dirname) filename)).
Qed.

(** X3. For a name that [setHeader] accepts and that resolves to a regular
    file, the answer is that file: status 200, the decoded name as the
    attachment name, and exactly the stored content. *)
Theorem download_streams_stored_content dirname param filename fs content mtime :
  URI.decodeURIComponent param = Ok filename ->
  header_safe filename = true ->
  Fs.resolve fs (Path.join (uploadsDir dirname) filename) = inr (File content mtime) ->
  downloadFile dirname param fs
  = (Ok (Response 200 (Attachment filename content)), fs).
Proof.
  intros Hdec Hsafe Hfile. rewrite downloadFile_run, Hdec. cbv zeta.
  now rewrite Hfile, Hsafe.
Qed.

(** X4. A decoded name with a byte that [setHeader] refuses (a control
    character such as CR or LF, or a character beyond U+00FF) never
    reaches the response headers: when the path exists the handler
    answers 500 with the message of the [TypeError], and nothing of the
    file is sent. *)
Theorem download_refuses_unsafe_name dirname param filename fs :
  URI.decodeURIComponent param = Ok filename ->
  header_safe filename = false ->
  exists_path fs (Path.join (uploadsDir dirname) filename) = true ->
  downloadFile dirname param fs
  = (Ok (Response 500 (JsonError
           ("Invalid character in header content [" ++ dquote
            ++ "Content-Disposition" ++ dquote ++ "]"))), fs).
Proof.
  intros Hdec Hsafe Hex. rewrite downloadFile_run, Hdec. cbv zeta.
  unfold exists_path in Hex.
  destruct (Fs.resolve fs (Path.join (uploadsDir dirname) filename));
    [discriminate|]. now rewrite Hsafe.
Qed.

Lemma decodeURIComponent_throws param e :
  URI.decodeURIComponent param = Throw e -> e = URIError.
Proof.
  unfold URI.decodeURIComponent. destruct (URI.decode None param); congruence.
Qed.

(** X5. A parameter that is not a well-formed percent-encoding is answered
    by both handlers with 500 and [URI malformed]; the delete handler
    removes nothing. *)
Theorem malformed_parameter_is_500 dirname param e fs :
  URI.decodeURIComponent param = Throw e ->
  downloadFile dirname param fs
  = (Ok (Response 500 (JsonError "URI malformed")), fs)
  /\ deleteFile dirname param fs
     = (Ok (Response 500 (JsonError "URI malformed")), fs).
Proof.
  intros Hdec. rewrite downloadFile_run, deleteFile_run, Hdec.
  now rewrite (decodeURIComponent_throws _ _ Hdec).
Qed.

(** ** What the delete handler leaves alone *)

Lemma after_cleanup_subseteq (q : string) (fs : FS) : after_cleanup q fs ⊆ fs.
Proof.
  unfold after_cleanup. destruct (is_regular fs q); [apply delete_subseteq|reflexivity].
Qed.

Lemma after_cleanup_lookup (q : string) (fs : FS) (K : list string) :
  K <> Fs.segments q -> after_cleanup q fs !! K = fs !! K.
Proof.
  intros H. unfold after_cleanup. destruct (is_regular fs q); [|reflexivity].
  now apply lookup_delete_ne.
Qed.

Lemma deleteFile_subseteq (dirname param : string) (fs : FS) :
  snd (deleteFile dirname param fs) ⊆ fs.
Proof.
  rewrite deleteFile_run.
  destruct (URI.decodeURIComponent param) as [filename|e]; [|reflexivity].
  cbv zeta. set (p := Path.join (uploadsDir dirname) filename).
  destruct (Fs.resolve fs p) as [e|[c m|s m]]; try reflexivity.
  assert (H1 : delete (Fs.segments p) fs ⊆ fs) by apply delete_subseteq.
  assert (H2 : after_cleanup (p ++ ".info") (delete (Fs.segments p) fs) ⊆ fs).
  { etransitivity; [apply after_cleanup_subseteq|exact H1]. }
  destruct (is_directory _ (p ++ ".info")); [exact H1|].
  destruct (is_directory _ (p ++ ".json")); [exact H2|].
  simpl. etransitivity; [apply after_cleanup_subseteq|exact H2].
Qed.

Lemma deleteFile_frame dirname param filename fs K :
  URI.decodeURIComponent param = Ok filename ->
  let p := Path.join (uploadsDir dirname) filename in
  K <> Fs.segments p ->
  K <> Fs.segments (p ++ ".info") ->
  K <> Fs.segments (p ++ ".json") ->
  snd (deleteFile dirname param fs) !! K = fs !! K.
Proof.
  intros Hdec p Hp Hi Hj. rewrite deleteFile_run, Hdec. cbv zeta. fold p.
  destruct (Fs.resolve fs p) as [e|[c m|s m]]; try reflexivity.
  assert (H1 : delete (Fs.segments p) fs !! K = fs !! K)
    by now apply lookup_delete_ne.
  destruct (is_directory _ (p ++ ".info")); [exact H1|].
  destruct (is_directory _ (p ++ ".json")); simpl;
    rewrite ?after_cleanup_lookup by congruence; exact H1.
Qed.

(** X6. The delete handler only ever removes: whatever the parameter and
    the answer, every entry of the file system after the call was there,
    unchanged, before it. *)
Theorem delete_only_removes (dirname param : string) (fs : FS) :
  snd (deleteFile dirname param fs) ⊆ fs.
Proof.
  rewrite deleteFile_run.
  destruct (URI.decodeURIComponent param) as [filename|e]; [|reflexivity].
  cbv zeta. set (p := Path.join (uploadsDir dirname) filename).
  destruct (Fs.resolve fs p) as [e|[c m|s m]]; try reflexivity.
  assert (H1 : delete (Fs.segments p) fs ⊆ fs) by apply delete_subseteq.
  assert (H2 : after_cleanup (p ++ ".info") (delete (Fs.segments p) fs) ⊆ fs).
  { etransitivity; [apply after_cleanup_subseteq|exact H1]. }
  destruct (is_directory _ (p ++ ".info")); [exact H1|].
  destruct (is_directory _ (p ++ ".json")); [exact H2|].
  simpl. etransitivity; [apply after_cleanup_subseteq|exact H2].
Qed.

(** X7. The delete handler touches three paths at most: an entry whose
    key is neither that of the primary path nor that of its [.info] or
    [.json] path is the same after the call as before. *)
Theorem delete_leaves_other_entries dirname param filename fs K :
  URI.decodeURIComponent param = Ok filename ->
  let p := Path.join (uploadsDir dirname) filename in
  K <> Fs.segments p ->
  K <> Fs.segments (p ++ ".info") ->
  K <> Fs.segments (p ++ ".json") ->
  snd (deleteFile dirname param fs) !! K = fs !! K.
Proof.
  intros Hdec p Hp Hi Hj. rewrite deleteFile_run, Hdec. cbv zeta. fold p.
  destruct (Fs.resolve fs p) as [e|[c m|s m]]; try reflexivity.
  assert (H1 : delete (Fs.segments p) fs !! K = fs !! K)
    by now apply lookup_delete_ne.
  destruct (is_directory _ (p ++ ".info")); [exact H1|].
  destruct (is_directory _ (p ++ ".json")); simpl;
    rewrite ?after_cleanup_lookup by congruence; exact H1.
Qed.

(** ** What the naming function returns *)

(** X8. A header with a pair that has no space-separated value part (a
    lone key, an empty pair after a trailing comma) makes the naming
    function throw a [TypeError]: no name is returned, not even the
    synthesized one. *)
Theorem naming_throws_on_valueless_pair now md :
  md <> EmptyString ->
  Exists (fun item => has_value item = false) (JsString.split "," md) ->
  exists msg, namingFunction now (Some md) = Throw (TypeError msg).
Proof.
  intros Hmd H. unfold namingFunction. destruct md as [|c md]; [congruence|].
  cbn [JsString.truthy].
  destruct (forEach_item_unvalued _ ∅ H) as [msg ->]. eauto.
Qed.

(** X9. The naming function never returns the empty name: whatever the
    header, a returned name has at least one character. *)
Theorem naming_never_returns_empty now metadata name :
  namingFunction now metadata = Ok name -> name <> EmptyString.
Proof.
  assert (Hfb : fallback_name now <> EmptyString) by discriminate.
  unfold namingFunction. destruct metadata as [md|]; [|congruence].
  destruct (JsString.truthy md); [|congruence].
  destruct (forEach_item _ ∅) as [obj|e]; [|discriminate].
  destruct (obj !! "filename") as [v|]; [|congruence].
  destruct v as [|c v]; simpl; [congruence|]. intros H. now injection H as <-.
Qed.

(** ** The listing as a filter of the enumeration *)

Lemma keepEntry_listable dirname file fs b :
  fst (keepEntry dirname file fs) = Ok b -> b = listable dirname fs file.
Proof.
  unfold listable. destruct (JsString.endsWith file ".info") eqn:Hinfo.
  - rewrite keepEntry_info by assumption. simpl. congruence.
  - rewrite keepEntry_run by assumption. simpl.
    destruct (JsString.endsWith file ".json" && _); simpl; [congruence|].
    unfold is_regular.
    destruct (Fs.resolve fs (Path.join (uploadsDir dirname) file)) as [e|[c m|s m]];
      simpl; congruence.
Qed.

(** A successful [filter] is the pure filter by what the callback
    answers. *)
Lemma filterM_filter {A} (f : A -> Fs.M bool) (g : A -> bool) l fs kept :
  (forall x, readonly (f x)) ->
  (forall x b, fst (f x fs) = Ok b -> b = g x) ->
  fst (Fs.filterM f l fs) = Ok kept -> kept = List.filter g l.
Proof.
  intros Hf Hg. revert kept. induction l as [|a l IH]; simpl; intros kept H.
  - now injection H as <-.
  - unfold Fs.bind in H. rewrite (readonly_run (f a) fs (Hf a)) in H.
    destruct (fst (f a fs)) as [keep|e] eqn:Ea; [|discriminate].
    rewrite (readonly_run _ fs (filterM_readonly f l Hf)) in H.
    destruct (fst (Fs.filterM f l fs)) as [kept'|e] eqn:El; [|discriminate].
    simpl in H. injection H as <-. rewrite <- (Hg a keep Ea), (IH kept' eq_refl).
    reflexivity.
Qed.

Lemma listFiles_success dirname fs files :
  fst (listFiles dirname fs) = Ok (Response 200 (JsonFiles files)) ->
  exists kept,
    fst (Fs.filterM (keepEntry dirname)
           (Fs.names fs (Fs.segments (uploadsDir dirname))) fs) = Ok kept
    /\ fst (Fs.mapM (describeEntry dirname) kept fs) = Ok files.
Proof.
  rewrite listFiles_quiet, listFilesDuring_run.
  destruct (Fs.resolve fs (uploadsDir dirname)) as [e|[c m|s m]];
    try discriminate.
  intros H. apply answer_files in H. rewrite listEntries_run in H. simpl in H.
  destruct (fst (Fs.filterM _ _ fs)) as [kept|e]; [|discriminate].
  exists kept. split; [reflexivity|].
  destruct (fst (Fs.mapM _ kept fs)) as [fl|e]; [|discriminate].
  now injection H as <-.
Qed.

Lemma listing_names dirname fs files :
  fst (listFiles dirname fs) = Ok (Response 200 (JsonFiles files)) ->
  map name files
  = List.filter (listable dirname fs)
      (Fs.names fs (Fs.segments (uploadsDir dirname))).
Proof.
  intros H. destruct (listFiles_success _ _ _ H) as [kept [Hk Hm]].
  rewrite (mapM_names _ _ _ _ Hm).
  apply (filterM_filter _ _ _ _ _ (readonly_keepEntry dirname)
           (fun x b => keepEntry_listable dirname x fs b) Hk).
Qed.

(** X10. A listing that is sent names exactly the names reported by the
    enumeration (the entry names decoded as UTF-8) that pass the filter,
    in the order of the enumeration and once per report: those that do
    not end with [.info], are not the [.json] sidecar of a regular file,
    and resolve to regular files. *)
Theorem listing_is_filtered_enumeration dirname fs files :
  fst (listFiles dirname fs) = Ok (Response 200 (JsonFiles files)) ->
  map name files
  = List.filter (listable dirname fs)
      (Fs.names fs (Fs.segments (uploadsDir dirname))).
Proof.
  intros H. destruct (listFiles_success _ _ _ H) as [kept [Hk Hm]].
  rewrite (mapM_names _ _ _ _ Hm).
  apply (filterM_filter _ _ _ _ _ (readonly_keepEntry dirname)
           (fun x b => keepEntry_listable dirname x fs b) Hk).
Qed.

Lemma describeEntry_run dirname file fs :
  describeEntry dirname file fs
  = (match Fs.resolve fs (Path.join (uploadsDir dirname) file) with
     | inr stats =>
         Ok {| name := file; size := st_size stats; uploadedAt := st_mtime stats;
               url := "/api/files/" ++ URI.encodeURIComponent file |}
     | inl e => Throw (SystemError e "stat" (Path.join (uploadsDir dirname) file))
     end, fs).
Proof.
  unfold describeEntry, Fs.bind, Fs.statSync.
  now destruct (Fs.resolve fs (Path.join (uploadsDir dirname) file)).
Qed.

Lemma mapM_describe dirname l fs files :
  fst (Fs.mapM (describeEntry dirname) l fs) = Ok files ->
  Forall (fun e => fst (describeEntry dirname (name e) fs) = Ok e) files.
Proof.
  revert files. induction l as [|a l IH]; simpl; intros files H.
  - injection H as <-. constructor.
  - unfold Fs.bind in H.
    rewrite (readonly_run _ fs (readonly_describeEntry dirname a)) in H.
    destruct (fst (describeEntry dirname a fs)) as [y|e] eqn:Ea; [|discriminate].
    rewrite (readonly_run _ fs (mapM_readonly _ l (readonly_describeEntry dirname))) in H.
    destruct (fst (Fs.mapM (describeEntry dirname) l fs)) as [ys|e] eqn:El; [|discriminate].
    simpl in H. injection H as <-. constructor; [|now apply IH].
    assert (Hn : name y = a).
    { rewrite describeEntry_run in Ea. simpl in Ea.
      destruct (Fs.resolve fs _); [discriminate|]. now injection Ea as <-. }
    now rewrite Hn.
Qed.

Lemma listing_descriptors dirname fs files :
  fst (listFiles dirname fs) = Ok (Response 200 (JsonFiles files)) ->
  Forall (fun e =>
            exists content mtime,
              Fs.resolve fs (Path.join (uploadsDir dirname) (name e))
              = inr (File content mtime)
              /\ size e = String.length content
              /\ uploadedAt e = mtime
              /\ url e = ("/api/files/" ++ URI.encodeURIComponent (name e))%string)
         files.
Proof.
  intros H. pose proof (listing_names _ _ _ H) as Hnames.
  destruct (listFiles_success _ _ _ H) as [kept [_ Hm]].
  apply mapM_describe in Hm. rewrite List.Forall_forall in Hm |- *.
  intros e He. specialize (Hm e He).
  assert (Hl : listable dirname fs (name e) = true).
  { assert (Hin : In (name e) (map name files)) by now apply in_map.
    rewrite Hnames in Hin. apply List.filter_In in Hin. apply Hin. }
  unfold listable in Hl. apply andb_true_iff in Hl as [_ Hreg].
  unfold is_regular in Hreg. rewrite describeEntry_run in Hm. simpl in Hm.
  destruct (Fs.resolve fs (Path.join (uploadsDir dirname) (name e)))
    as [err|[c m|s m]]; try discriminate.
  exists c, m. split; [reflexivity|]. injection Hm as Hm. rewrite <- Hm. simpl. auto.
Qed.

(** X11. Every descriptor of a listing that is sent describes a regular
    file of the upload directory as it is stored: [size] is the length of
    its content, [uploadedAt] its modification time, and [url] is
    [/api/files/] followed by the percent-encoded name. *)
Theorem listing_descriptors_match_files dirname fs files :
  fst (listFiles dirname fs) = Ok (Response 200 (JsonFiles files)) ->
  Forall (fun e =>
            exists content mtime,
              Fs.resolve fs (Path.join (uploadsDir dirname) (name e))
              = inr (File content mtime)
              /\ size e = String.length content
              /\ uploadedAt e = mtime
              /\ url e = ("/api/files/" ++ URI.encodeURIComponent (name e))%string)
         files.
Proof.
  intros H. pose proof (listing_names _ _ _ H) as Hnames.
  destruct (listFiles_success _ _ _ H) as [kept [_ Hm]].
  apply mapM_describe in Hm. rewrite List.Forall_forall in Hm |- *.
  intros e He. specialize (Hm e He).
  assert (Hl : listable dirname fs (name e) = true).
  { assert (Hin : In (name e) (map name files)) by now apply in_map.
    rewrite Hnames in Hin. apply List.filter_In in Hin. apply Hin. }
  unfold listable in Hl. apply andb_true_iff in Hl as [_ Hreg].
  unfold is_regular in Hreg. rewrite describeEntry_run in Hm. simpl in Hm.
  destruct (Fs.resolve fs (Path.join (uploadsDir dirname) (name e)))
    as [err|[c m|s m]]; try discriminate.
  exists c, m. split; [reflexivity|]. injection Hm as Hm. rewrite <- Hm. simpl. auto.
Qed.

(** X12. The listing handler never changes the file system. *)
Theorem listing_changes_nothing dirname fs :
  snd (listFiles dirname fs) = fs.
Proof.
  rewrite listFiles_quiet, listFilesDuring_run.
  now destruct (Fs.resolve fs (uploadsDir dirname)) as [e|[c m|s m]].
Qed.

(** ** [path.join] on an absolute directory and a plain name *)

Lemma split_sep_app sep (a b : string) :
  JsString.split sep (a ++ String sep b)
  = (JsString.split sep a ++ JsString.split sep b)%list.
Proof.
  induction a as [|c a IH]; simpl.
  - now rewrite Ascii.eqb_refl.
  - rewrite IH. destruct (Ascii.eqb c sep); [reflexivity|].
    destruct (JsString.split sep a) as [|h t] eqn:E;
      [now destruct (split_nonempty sep a)|reflexivity].
Qed.

Lemma split_slash_free (s : string) :
  slash_free s = true -> JsString.split "/" s = [s].
Proof.
  unfold slash_free. induction s as [|c s IH]; simpl; [reflexivity|].
  intros H. apply andb_true_iff in H as [Hc Hs].
  apply negb_true_iff in Hc. rewrite Hc, (IH Hs). reflexivity.
Qed.

Lemma split_pieces_slash_free (s : string) :
  Forall (fun x => slash_free x = true) (JsString.split "/" s).
Proof.
  induction s as [|c s IH]; simpl; [repeat constructor|].
  destruct (Ascii.eqb c "/") eqn:Ec; [now constructor|].
  destruct (JsString.split "/" s) as [|h t].
  - constructor; [|constructor]. unfold slash_free. simpl. now rewrite Ec.
  - inversion IH; subst. constructor; [|assumption].
    unfold slash_free in *. simpl. now rewrite Ec.
Qed.

Lemma split_unsplit (segs : list string) :
  segs <> [] -> Forall (fun x => slash_free x = true) segs ->
  JsString.split "/" (Path.unsplit segs) = segs.
Proof.
  induction segs as [|s segs IH]; [congruence|]. intros _ H.
  inversion H as [|? ? Hs Hrest]; subst.
  destruct segs as [|s' segs]; [now apply split_slash_free|].
  change (Path.unsplit (s :: s' :: segs))
    with (s ++ String "/" (Path.unsplit (s' :: segs)))%string.
  rewrite split_sep_app, (split_slash_free s Hs), IH by (assumption || discriminate).
  reflexivity.
Qed.

Lemma plain_proper s : plain s = true -> proper s = true.
Proof. unfold plain. intros H. now apply andb_true_iff in H. Qed.

Lemma plain_slash_free s : plain s = true -> slash_free s = true.
Proof. unfold plain. intros H. now apply andb_true_iff in H. Qed.

Lemma plain_nonempty s : plain s = true -> Fs.nonempty s = true.
Proof.
  intros H. apply plain_proper in H. unfold proper in H.
  apply andb_true_iff in H as [H _]. now apply andb_true_iff in H.
Qed.

Lemma push_proper allow res s :
  proper s = true -> Path.push allow res s = s :: res.
Proof.
  unfold proper, Path.push, Fs.nonempty. intros H.
  apply andb_true_iff in H as [H Hdd]. apply andb_true_iff in H as [Hne Hd].
  apply negb_true_iff in Hne, Hd, Hdd. now rewrite Hne, Hd, Hdd.
Qed.

Lemma fold_push_proper allow segs res :
  Forall (fun s => proper s = true) segs ->
  fold_left (Path.push allow) segs res = (rev segs ++ res)%list.
Proof.
  intros H. revert res. induction H as [|s segs Hs _ IH]; intros res;
    [reflexivity|].
  simpl. rewrite push_proper by assumption. rewrite IH, <- app_assoc. reflexivity.
Qed.

(** What [normalizeString] keeps, for a path that may not climb above the
    root, is made of proper segments taken from the input. *)
Lemma fold_push_keeps (P : string -> Prop) segs res :
  Forall P segs -> Forall P res ->
  Forall (fun s => proper s = true) res ->
  Forall P (fold_left (Path.push false) segs res)
  /\ Forall (fun s => proper s = true) (fold_left (Path.push false) segs res).
Proof.
  intros Hsegs. revert res. induction Hsegs as [|s segs Hs _ IH]; intros res HP Hprop;
    [now split|].
  simpl. apply IH; unfold Path.push.
  - destruct (String.eqb s "" || Path.is_dot s); [assumption|].
    destruct (Path.is_dotdot s).
    + destruct res as [|top below]; [constructor|].
      inversion HP; subst. now destruct (Path.is_dotdot top).
    + now constructor.
  - destruct (String.eqb s "" || Path.is_dot s) eqn:E1; [assumption|].
    destruct (Path.is_dotdot s) eqn:E2.
    + destruct res as [|top below]; [constructor|].
      inversion Hprop; subst. now destruct (Path.is_dotdot top).
    + constructor; [|assumption]. unfold proper, Fs.nonempty.
      apply orb_false_iff in E1 as [-> ->]. now rewrite E2.
Qed.

Lemma kept_segments_plain dir :
  Forall (fun s => plain s = true) (kept_segments dir).
Proof.
  unfold kept_segments, Path.normalizeString.
  destruct (fold_push_keeps (fun x => slash_free x = true)
              (JsString.split "/" dir) [] (split_pieces_slash_free dir)
              (List.Forall_nil _) (List.Forall_nil _)) as [Hs Hp].
  apply List.Forall_rev. rewrite List.Forall_forall in Hs, Hp |- *.
  intros x Hx. unfold plain. now rewrite (Hs x Hx), (Hp x Hx).
Qed.

Lemma Forall_plain_proper segs :
  Forall (fun s => plain s = true) segs -> Forall (fun s => proper s = true) segs.
Proof. intros H. eapply List.Forall_impl; [|exact H]. exact plain_proper. Qed.

Lemma Forall_plain_slash_free segs :
  Forall (fun s => plain s = true) segs ->
  Forall (fun s => slash_free s = true) segs.
Proof. intros H. eapply List.Forall_impl; [|exact H]. exact plain_slash_free. Qed.

Lemma unsplit_snoc_nonempty segs s :
  s <> EmptyString -> Path.unsplit (segs ++ [s]) <> EmptyString.
Proof.
  intros Hs. induction segs as [|a segs IH]; simpl; [assumption|].
  destruct (segs ++ [s])%list eqn:E; [now destruct segs|].
  destruct a; discriminate.
Qed.

Lemma nonempty_neq s : Fs.nonempty s = true -> s <> EmptyString.
Proof. intros H ->. discriminate. Qed.

Lemma append_empty_r (s : string) : (s ++ "")%string = s.
Proof.
  induction s as [|c s IH]; [reflexivity|].
  change (String c (s ++ "") = String c s). now f_equal.
Qed.

(** The pieces of a canonical path, and the path it normalizes to. *)
Lemma split_canonical segs :
  segs <> [] -> Forall (fun s => plain s = true) segs ->
  JsString.split "/" (canonical segs) = EmptyString :: segs.
Proof.
  intros Hne H. unfold canonical. simpl.
  now rewrite split_unsplit by (assumption || now apply Forall_plain_slash_free).
Qed.

Lemma segments_canonical segs :
  segs <> [] -> Forall (fun s => plain s = true) segs ->
  Fs.segments (canonical segs) = segs.
Proof.
  intros Hne H. unfold Fs.segments. rewrite split_canonical by assumption.
  simpl. induction H as [|s segs Hs _ IH]; [reflexivity|].
  simpl. rewrite (plain_nonempty s Hs). f_equal.
  destruct segs; [reflexivity|]. apply IH. discriminate.
Qed.

Lemma kept_segments_canonical segs :
  segs <> [] -> Forall (fun s => plain s = true) segs ->
  kept_segments (canonical segs) = segs.
Proof.
  intros Hne H. unfold kept_segments, Path.normalizeString.
  rewrite split_canonical by assumption. simpl.
  rewrite fold_push_proper by now apply Forall_plain_proper.
  rewrite app_nil_r. apply rev_involutive.
Qed.

Lemma canonical_no_trailing_slash segs :
  segs <> [] -> Forall (fun s => plain s = true) segs ->
  JsString.endsWith (canonical segs) "/" = false.
Proof.
  intros Hne H. destruct (JsString.endsWith (canonical segs) "/") eqn:E;
    [|reflexivity].
  apply endsWith_inv in E as [u E].
  assert (Hs : JsString.split "/" (canonical segs)
               = (JsString.split "/" u ++ [EmptyString])%list).
  { rewrite E. apply (split_sep_app "/" u ""). }
  rewrite split_canonical in Hs by assumption.
  assert (Hlast : List.last (EmptyString :: segs) "x" = EmptyString).
  { rewrite Hs. apply List.last_last. }
  destruct (List.exists_last Hne) as [front [l ->]].
  change (EmptyString :: front ++ [l])%list
    with ((EmptyString :: front) ++ [l])%list in Hlast.
  rewrite List.last_last in Hlast. subst l.
  apply Forall_app in H as [_ H]. inversion H; subst. discriminate.
Qed.

Lemma split_join_plain (a b : string) :
  plain b = true ->
  JsString.split "/" (a ++ String "/" b) = (JsString.split "/" a ++ [b])%list.
Proof.
  intros Hb. now rewrite split_sep_app, (split_slash_free b (plain_slash_free b Hb)).
Qed.

Lemma no_trailing_slash_plain (a b : string) :
  plain b = true -> JsString.endsWith (a ++ String "/" b) "/" = false.
Proof.
  intros Hb. destruct (JsString.endsWith (a ++ String "/" b) "/") eqn:E;
    [|reflexivity].
  apply endsWith_inv in E as [u E].
  assert (Hs : JsString.split "/" (a ++ String "/" b)
               = (JsString.split "/" u ++ [EmptyString])%list).
  { rewrite E. apply (split_sep_app "/" u ""). }
  rewrite split_join_plain in Hs by assumption.
  apply app_inj_tail in Hs as [_ ->]. discriminate.
Qed.

(** [path.join] of an absolute directory and a plain name: the kept
    segments of the directory followed by the name. *)
Lemma join_absolute_plain (a b : string) :
  Path.isAbsolute a = true -> plain b = true ->
  Path.join a b = canonical (kept_segments a ++ [b]).
Proof.
  intros Ha Hb. destruct a as [|c a]; [discriminate|].
  assert (Hbne : b <> EmptyString) by apply nonempty_neq, plain_nonempty, Hb.
  unfold Path.join. change (String.eqb (String c a) "") with false.
  destruct (String.eqb_spec b ""); [contradiction|]. cbv iota.
  change (String c a ++ "/" ++ b)%string with (String c a ++ String "/" b)%string.
  unfold Path.normalize.
  change (String.eqb (String c a ++ String "/" b) "") with false. cbv iota.
  assert (Habs : Path.isAbsolute (String c a ++ String "/" b) = true) by exact Ha.
  rewrite Habs, no_trailing_slash_plain by assumption. simpl negb.
  assert (Hbody : Path.normalizeString false
                    (JsString.split "/" (String c a ++ String "/" b))
                  = (kept_segments (String c a) ++ [b])%list).
  { rewrite split_join_plain by assumption.
    unfold kept_segments, Path.normalizeString. rewrite fold_left_app. simpl.
    now rewrite push_proper by now apply plain_proper. }
  rewrite Hbody.
  destruct (String.eqb_spec (Path.unsplit (kept_segments (String c a) ++ [b])) "")
    as [E|_]; [now apply unsplit_snoc_nonempty in E|].
  unfold canonical. simpl. now rewrite append_empty_r.
Qed.

Lemma plain_uploads : plain "uploads" = true.
Proof. reflexivity. Qed.

(** The upload directory of an absolute module directory. *)
Lemma uploadsDir_canonical dirname :
  Path.isAbsolute dirname = true ->
  uploadsDir dirname = canonical (kept_segments dirname ++ ["uploads"]).
Proof. intros H. unfold uploadsDir. now apply join_absolute_plain. Qed.

Lemma plain_snoc segs s :
  Forall (fun x => plain x = true) segs -> plain s = true ->
  Forall (fun x => plain x = true) (segs ++ [s]).
Proof. intros H Hs. apply Forall_app. split; [assumption|now constructor]. Qed.

Lemma snoc_not_nil {A} (l : list A) x : (l ++ [x])%list <> [].
Proof. now destruct l. Qed.

Lemma uploads_segments dirname :
  Path.isAbsolute dirname = true ->
  Fs.segments (uploadsDir dirname) = (kept_segments dirname ++ ["uploads"])%list.
Proof.
  intros H. rewrite uploadsDir_canonical by assumption.
  apply segments_canonical; [apply snoc_not_nil|].
  apply plain_snoc; [apply kept_segments_plain|reflexivity].
Qed.

(** A plain name joined to the upload directory is the entry of that
    name directly inside it. *)
Lemma join_uploads_plain dirname file :
  Path.isAbsolute dirname = true -> plain file = true ->
  Path.join (uploadsDir dirname) file
  = canonical (Fs.segments (uploadsDir dirname) ++ [file]).
Proof.
  intros H Hf. rewrite uploads_segments by assumption.
  rewrite uploadsDir_canonical by assumption.
  rewrite join_absolute_plain by (reflexivity || assumption).
  rewrite kept_segments_canonical; [reflexivity|apply snoc_not_nil|].
  apply plain_snoc; [apply kept_segments_plain|reflexivity].
Qed.

Lemma uploads_segments_plain dirname :
  Path.isAbsolute dirname = true ->
  Forall (fun x => plain x = true) (Fs.segments (uploadsDir dirname)).
Proof.
  intros H. rewrite uploads_segments by assumption.
  apply plain_snoc; [apply kept_segments_plain|reflexivity].
Qed.

Lemma segments_join_uploads dirname file :
  Path.isAbsolute dirname = true -> plain file = true ->
  Fs.segments (Path.join (uploadsDir dirname) file)
  = (Fs.segments (uploadsDir dirname) ++ [file])%list.
Proof.
  intros H Hf. rewrite join_uploads_plain by assumption.
  apply segments_canonical; [apply snoc_not_nil|].
  apply plain_snoc; [now apply uploads_segments_plain|assumption].
Qed.

(** ** Entries of a directory *)

Lemma child_of_spec dir k file :
  Fs.child_of dir k = Some file <-> k = (dir ++ [file])%list.
Proof.
  revert k. induction dir as [|d dir IH]; intros k; simpl.
  - destruct k as [|a [|b k]]; split; intros H; try discriminate;
      try (now injection H as ->); now injection H as ->.
  - destruct k as [|a k]; [split; discriminate|].
    destruct (String.eqb_spec d a) as [->|Hne].
    + rewrite IH. split; [now intros ->|now intros [= ->]].
    + split; [discriminate|]. intros [= -> _]. contradiction.
Qed.

Lemma in_entries (fs : FS) dir file :
  In file (Fs.entries fs dir) <-> exists n, fs !! (dir ++ [file])%list = Some n.
Proof.
  unfold Fs.entries. rewrite <- list_elem_of_In, list_elem_of_omap. split.
  - intros [[k n] [Hin Hc]]. simpl in Hc. apply child_of_spec in Hc as ->.
    exists n. now apply elem_of_map_to_list.
  - intros [n Hn]. exists ((dir ++ [file])%list, n). split.
    + now apply elem_of_map_to_list.
    + simpl. now apply child_of_spec.
Qed.

Lemma walk_app (fs : FS) cur r1 r2 s m :
  Fs.walk fs cur r1 = inr (Directory s m) ->
  Fs.walk fs cur (r1 ++ r2) = Fs.walk fs (cur ++ r1) r2.
Proof.
  revert cur. induction r1 as [|a r1 IH]; intros cur H.
  - now rewrite app_nil_r.
  - simpl in *. destruct (fs !! cur) as [[c t|sz t]|]; try discriminate.
    rewrite (IH _ H), <- app_assoc. reflexivity.
Qed.

Lemma resolve_directory_walk (fs : FS) p s m :
  Fs.resolve fs p = inr (Directory s m) ->
  Fs.walk fs [] (Fs.segments p) = inr (Directory s m).
Proof.
  unfold Fs.resolve.
  destruct (Fs.walk fs [] (Fs.segments p)) as [e|[c t|sz t]]; try congruence.
  now destruct (JsString.endsWith p "/").
Qed.

(** Resolving a plain name inside the upload directory is a look-up of
    its key. *)
Lemma resolve_entry (dirname : string) (fs : FS) (file : string) s m :
  Path.isAbsolute dirname = true -> plain file = true ->
  Fs.resolve fs (uploadsDir dirname) = inr (Directory s m) ->
  Fs.resolve fs (Path.join (uploadsDir dirname) file)
  = match fs !! (Fs.segments (uploadsDir dirname) ++ [file])%list with
    | Some n => inr n
    | None => inl ENOENT
    end.
Proof.
  intros Habs Hf Hdir. unfold Fs.resolve.
  rewrite segments_join_uploads by assumption.
  apply resolve_directory_walk in Hdir.
  rewrite (walk_app _ _ _ _ _ _ Hdir).
  pose proof (walk_lookup _ _ _ _ Hdir) as Hl.
  change ([] ++ Fs.segments (uploadsDir dirname))%list
    with (Fs.segments (uploadsDir dirname)) in Hl |- *.
  cbn [Fs.walk]. rewrite Hl.
  destruct (fs !! (Fs.segments (uploadsDir dirname) ++ [file])%list) as [[c t|sz t]|];
    try reflexivity.
  rewrite join_uploads_plain by assumption.
  rewrite canonical_no_trailing_slash; [reflexivity|apply snoc_not_nil|].
  apply plain_snoc; [now apply uploads_segments_plain|assumption].
Qed.

(** ** The listing of a quiescent directory *)

Lemma filterM_succeeds {A} (f : A -> Fs.M bool) l fs :
  (forall x, readonly (f x)) ->
  Forall (fun x => exists b, fst (f x fs) = Ok b) l ->
  exists kept, fst (Fs.filterM f l fs) = Ok kept.
Proof.
  intros Hf H. induction H as [|a l [b Ha] _ [kept IH]]; simpl; [now exists []|].
  unfold Fs.bind. rewrite (readonly_run (f a) fs (Hf a)), Ha.
  rewrite (readonly_run _ fs (filterM_readonly f l Hf)), IH. simpl. eauto.
Qed.

Lemma mapM_succeeds {A B} (f : A -> Fs.M B) l fs :
  (forall x, readonly (f x)) ->
  Forall (fun x => exists y, fst (f x fs) = Ok y) l ->
  exists ys, fst (Fs.mapM f l fs) = Ok ys.
Proof.
  intros Hf H. induction H as [|a l [y Ha] _ [ys IH]]; simpl; [now exists []|].
  unfold Fs.bind. rewrite (readonly_run (f a) fs (Hf a)), Ha.
  rewrite (readonly_run _ fs (mapM_readonly f l Hf)), IH. simpl. eauto.
Qed.

(** ** Names as the enumeration reports them *)

Lemma lead_seen b p : Utf8.lead b = Some p -> Utf8.seen p = [b].
Proof.
  unfold Utf8.lead.
  destruct ((194 <=? b)%N && (b <=? 223)%N); [now intros [= <-]|].
  destruct ((224 <=? b)%N && (b <=? 239)%N); [now intros [= <-]|].
  destruct ((240 <=? b)%N && (b <=? 244)%N); [now intros [= <-]|discriminate].
Qed.

(** The decoder copies well-formed bytes. *)
Lemma run_well_formed l :
  forall st,
    Utf8.well_formed st l = true ->
    Utf8.run st l
    = (match st with None => [] | Some p => Utf8.seen p end ++ l)%list.
Proof.
  induction l as [|b l IH]; intros [p|] H; simpl in H |- *.
  - discriminate.
  - reflexivity.
  - apply andb_true_iff in H as [Hacc H]. rewrite Hacc.
    rewrite (surjective_pairing (Utf8.advance p b)), (IH _ H).
    unfold Utf8.advance. destruct (Utf8.needed p) as [|[|k]]; simpl;
      now rewrite <- app_assoc.
  - unfold Utf8.start. destruct (b <=? 127)%N.
    + now rewrite (IH None H).
    + destruct (Utf8.lead b) as [p|] eqn:E; [|discriminate].
      rewrite (IH (Some p) H), (lead_seen _ _ E). reflexivity.
Qed.

Lemma of_name_bytes s : JsString.of_bytes (name_bytes s) = s.
Proof.
  unfold JsString.of_bytes, name_bytes. rewrite map_map.
  rewrite (map_ext _ (fun c => c) ascii_N_embedding), map_id.
  apply string_of_list_ascii_of_string.
Qed.

(** A name that is well-formed UTF-8 is reported as it is stored. *)
Lemma decode_name_utf8 s : utf8_name s = true -> Fs.decode_name s = s.
Proof.
  intros H. unfold Fs.decode_name, Utf8.toString.
  change (map N_of_ascii (list_ascii_of_string s)) with (name_bytes s).
  rewrite (run_well_formed _ None H). apply of_name_bytes.
Qed.

Lemma names_utf8 (dirname : string) (fs : FS) :
  utf8_names dirname fs = true ->
  Fs.names fs (Fs.segments (uploadsDir dirname))
  = Fs.entries fs (Fs.segments (uploadsDir dirname)).
Proof.
  unfold utf8_names, Fs.names. rewrite forallb_forall. intros H.
  rewrite <- (map_id (Fs.entries fs _)) at 2. apply map_ext_in.
  intros x Hx. now apply decode_name_utf8, H.
Qed.

Lemma utf8_names_subseteq (dirname : string) (fs' fs : FS) :
  fs' ⊆ fs -> utf8_names dirname fs = true -> utf8_names dirname fs' = true.
Proof.
  unfold utf8_names. rewrite !forallb_forall. intros Hsub H x Hx. apply H.
  apply in_entries in Hx as [n Hn]. apply in_entries. exists n.
  exact (lookup_weaken _ _ _ _ Hn Hsub).
Qed.

Lemma entry_plain (fs : FS) dir file :
  plain_keys fs -> In file (Fs.entries fs dir) -> plain file = true.
Proof.
  intros Hwf Hin. apply in_entries in Hin as [n Hn]. apply Hwf in Hn.
  apply Forall_app in Hn as [_ Hn]. now inversion Hn.
Qed.

Lemma keepEntry_succeeds (dirname : string) (fs : FS) (file : string) s m :
  Path.isAbsolute dirname = true -> plain_keys fs ->
  Fs.resolve fs (uploadsDir dirname) = inr (Directory s m) ->
  In file (Fs.entries fs (Fs.segments (uploadsDir dirname))) ->
  exists b, fst (keepEntry dirname file fs) = Ok b.
Proof.
  intros Habs Hwf Hdir Hin.
  destruct (JsString.endsWith file ".info") eqn:Hinfo.
  - rewrite keepEntry_info by assumption. now exists false.
  - rewrite keepEntry_run by assumption.
    destruct (JsString.endsWith file ".json" && _); [now exists false|].
    rewrite (resolve_entry dirname fs file s m Habs (entry_plain _ _ _ Hwf Hin) Hdir).
    apply in_entries in Hin as [n ->]. simpl. eauto.
Qed.

Lemma listFiles_succeeds (dirname : string) (fs : FS) s m :
  Path.isAbsolute dirname = true -> plain_keys fs ->
  utf8_names dirname fs = true ->
  Fs.resolve fs (uploadsDir dirname) = inr (Directory s m) ->
  exists files, listFiles dirname fs = (Ok (Response 200 (JsonFiles files)), fs).
Proof.
  intros Habs Hwf Hutf Hdir.
  rewrite listFiles_quiet, listFilesDuring_run, Hdir, listEntries_run.
  rewrite (names_utf8 _ _ Hutf).
  set (names := Fs.entries fs (Fs.segments (uploadsDir dirname))).
  destruct (filterM_succeeds (keepEntry dirname) names fs
              (readonly_keepEntry dirname)) as [kept Hk].
  { apply List.Forall_forall. intros x Hx.
    now apply (keepEntry_succeeds dirname fs x s m). }
  rewrite Hk.
  destruct (mapM_succeeds (describeEntry dirname) kept fs
              (readonly_describeEntry dirname)) as [files Hm].
  { apply List.Forall_forall. intros x Hx.
    apply (filterM_kept _ _ _ _ (readonly_keepEntry dirname) Hk) in Hx as [_ Hx].
    apply keepEntry_listable in Hx. unfold listable in Hx.
    symmetry in Hx. apply andb_true_iff in Hx as [_ Hx]. unfold is_regular in Hx.
    rewrite describeEntry_run. simpl.
    destruct (Fs.resolve fs (Path.join (uploadsDir dirname) x)); [discriminate|].
    eauto. }
  rewrite Hm. now exists files.
Qed.

Lemma quiescent_listing (dirname : string) (fs : FS) s m :
  Path.isAbsolute dirname = true -> plain_keys fs ->
  utf8_names dirname fs = true ->
  Fs.resolve fs (uploadsDir dirname) = inr (Directory s m) ->
  exists files,
    listFiles dirname fs = (Ok (Response 200 (JsonFiles files)), fs)
    /\ forall file,
         In file (map name files)
         <-> (exists content mtime,
                fs !! (Fs.segments (uploadsDir dirname) ++ [file])%list
                = Some (File content mtime))
             /\ JsString.endsWith file ".info" = false
             /\ JsString.endsWith file ".json"
                && is_regular fs (Path.join (uploadsDir dirname)
                                    (JsString.slice_end file 5)) = false.
Proof.
  intros Habs Hwf Hutf Hdir.
  destruct (listFiles_succeeds dirname fs s m Habs Hwf Hutf Hdir) as [files Hl].
  exists files. split; [exact Hl|]. intros file.
  assert (Hn := listing_names dirname fs files (f_equal fst Hl)).
  rewrite Hn, (names_utf8 _ _ Hutf), List.filter_In. unfold listable. split.
  - intros [Hin H]. apply andb_true_iff in H as [H Hreg].
    apply andb_true_iff in H as [Hinfo Hside].
    apply negb_true_iff in Hinfo, Hside. repeat split; try assumption.
    unfold is_regular in Hreg.
    rewrite (resolve_entry dirname fs file s m Habs (entry_plain _ _ _ Hwf Hin) Hdir)
      in Hreg.
    destruct (fs !! _) as [[c t|sz t]|]; try discriminate. eauto.
  - intros [[c [t Hfile]] [Hinfo Hside]].
    assert (Hin : In file (Fs.entries fs (Fs.segments (uploadsDir dirname))))
      by (apply in_entries; eauto).
    split; [exact Hin|]. rewrite Hinfo, Hside. simpl. unfold is_regular.
    rewrite (resolve_entry dirname fs file s m Habs (entry_plain _ _ _ Hwf Hin) Hdir).
    now rewrite Hfile.
Qed.

(** X13. With an absolute module directory, an upload directory that is a
    directory, a file system whose keys are plain names, and entries of
    the upload directory whose names are well-formed UTF-8, the listing
    always answers 200 when nothing changes the directory during the
    call, and a name is listed exactly when its entry in the upload
    directory is a regular file, it does not end with [.info], and it is
    not the [.json] sidecar of a regular file. *)
Theorem quiescent_listing_succeeds (dirname : string) (fs : FS) s m :
  Path.isAbsolute dirname = true -> plain_keys fs ->
  utf8_names dirname fs = true ->
  Fs.resolve fs (uploadsDir dirname) = inr (Directory s m) ->
  exists files,
    listFiles dirname fs = (Ok (Response 200 (JsonFiles files)), fs)
    /\ forall file,
         In file (map name files)
         <-> (exists content mtime,
                fs !! (Fs.segments (uploadsDir dirname) ++ [file])%list
                = Some (File content mtime))
             /\ JsString.endsWith file ".info" = false
             /\ JsString.endsWith file ".json"
                && is_regular fs (Path.join (uploadsDir dirname)
                                    (JsString.slice_end file 5)) = false.
Proof.
  intros Habs Hwf Hutf Hdir.
  destruct (listFiles_succeeds dirname fs s m Habs Hwf Hutf Hdir) as [files Hl].
  exists files. split; [exact Hl|]. intros file.
  assert (Hn := listing_names dirname fs files (f_equal fst Hl)).
  rewrite Hn, (names_utf8 _ _ Hutf), List.filter_In. unfold listable. split.
  - intros [Hin H]. apply andb_true_iff in H as [H Hreg].
    apply andb_true_iff in H as [Hinfo Hside].
    apply negb_true_iff in Hinfo, Hside. repeat split; try assumption.
    unfold is_regular in Hreg.
    rewrite (resolve_entry dirname fs file s m Habs (entry_plain _ _ _ Hwf Hin) Hdir)
      in Hreg.
    destruct (fs !! _) as [[c t|sz t]|]; try discriminate. eauto.
  - intros [[c [t Hfile]] [Hinfo Hside]].
    assert (Hin : In file (Fs.entries fs (Fs.segments (uploadsDir dirname))))
      by (apply in_entries; eauto).
    split; [exact Hin|]. rewrite Hinfo, Hside. simpl. unfold is_regular.
    rewrite (resolve_entry dirname fs file s m Habs (entry_plain _ _ _ Hwf Hin) Hdir).
    now rewrite Hfile.
Qed.

(** ** Decoding names *)

(** One step of the decoder on a non-empty text. *)
Lemma decode_unfold open c rest :
  URI.decode open (String c rest)
  = if Ascii.eqb c "%" then
      match rest with
      | String h1 (String h2 rest') =>
          match URI.hex_value h1, URI.hex_value h2 with
          | Some a, Some b =>
              let B := (16 * a + b)%N in
              match open with
              | None =>
                  if (B <? 128)%N
                  then String (ascii_of_N B) <$> URI.decode None rest'
                  else match URI.sequence_length B with
                       | Some n => URI.decode (Some ([B], Nat.pred n)) rest'
                       | None => None
                       end
              | Some (octets, k) =>
                  if URI.continuation B then
                    match k with
                    | 0%nat | 1%nat =>
                        if Utf8.well_formed None (octets ++ [B])
                        then String.append (JsString.of_bytes (octets ++ [B]))
                               <$> URI.decode None rest'
                        else None
                    | S k' => URI.decode (Some ((octets ++ [B])%list, k')) rest'
                    end
                  else None
              end
          | _, _ => None
          end
      | _ => None
      end
    else match open with
         | None => String c <$> URI.decode None rest
         | Some _ => None
         end.
Proof.
  destruct c as [[] [] [] [] [] [] [] []]; destruct open; reflexivity.
Qed.

(** A text without ['%'] decodes to itself. *)
Lemma decode_percent_free s :
  percent_free s = true -> URI.decodeURIComponent s = Ok s.
Proof.
  unfold URI.decodeURIComponent, percent_free. intros H.
  assert (Hd : URI.decode None s = Some s).
  { induction s as [|c s IH]; [reflexivity|]. simpl in H.
    apply andb_true_iff in H as [Hc Hs]. apply negb_true_iff in Hc.
    rewrite decode_unfold, Hc, (IH Hs). reflexivity. }
  now rewrite Hd.
Qed.

(** ** Plain names stay inside the upload directory *)

Lemma listed_quiescent (dirname : string) (fs : FS) s m file :
  Path.isAbsolute dirname = true -> plain_keys fs ->
  utf8_names dirname fs = true ->
  Fs.resolve fs (uploadsDir dirname) = inr (Directory s m) ->
  listed file (fst (listFiles dirname fs))
  <-> (exists content mtime,
         fs !! (Fs.segments (uploadsDir dirname) ++ [file])%list
         = Some (File content mtime))
      /\ JsString.endsWith file ".info" = false
      /\ JsString.endsWith file ".json"
         && is_regular fs (Path.join (uploadsDir dirname)
                             (JsString.slice_end file 5)) = false.
Proof.
  intros Habs Hwf Hutf Hdir.
  destruct (quiescent_listing dirname fs s m Habs Hwf Hutf Hdir) as [files [-> H]].
  simpl. apply H.
Qed.

Lemma canonical_nonempty segs : canonical segs <> EmptyString.
Proof. discriminate. Qed.

(** The three paths of a plain name are entries of the upload directory. *)
Lemma delete_keys (dirname filename : string) :
  Path.isAbsolute dirname = true -> plain filename = true ->
  let p := Path.join (uploadsDir dirname) filename in
  let U := Fs.segments (uploadsDir dirname) in
  Fs.segments p = (U ++ [filename])%list
  /\ Fs.segments (p ++ ".info") = (U ++ [(filename ++ ".info")%string])%list
  /\ Fs.segments (p ++ ".json") = (U ++ [(filename ++ ".json")%string])%list.
Proof.
  intros Habs Hf p U.
  assert (Hp : Fs.segments p = (U ++ [filename])%list)
    by now apply segments_join_uploads.
  assert (Hslash : JsString.endsWith p "/" = false).
  { unfold p. rewrite join_uploads_plain by assumption.
    apply canonical_no_trailing_slash; [apply snoc_not_nil|].
    apply plain_snoc; [now apply uploads_segments_plain|assumption]. }
  split; [exact Hp|]. split.
  - destruct (segments_suffix p ".info" (join_nonempty _ _) Hslash eq_refl)
      as [front [l [H1 H2]]]; [discriminate|].
    rewrite Hp in H1. apply app_inj_tail in H1 as [<- <-]. exact H2.
  - destruct (segments_suffix p ".json" (join_nonempty _ _) Hslash eq_refl)
      as [front [l [H1 H2]]]; [discriminate|].
    rewrite Hp in H1. apply app_inj_tail in H1 as [<- <-]. exact H2.
Qed.

Lemma deleteFile_confined (dirname param filename : string) (fs : FS) (K : list string) :
  Path.isAbsolute dirname = true ->
  URI.decodeURIComponent param = Ok filename ->
  plain filename = true ->
  (forall entry, K <> (Fs.segments (uploadsDir dirname) ++ [entry])%list) ->
  snd (deleteFile dirname param fs) !! K = fs !! K.
Proof.
  intros Habs Hdec Hf HK.
  destruct (delete_keys dirname filename Habs Hf) as [Kp [Ki Kj]].
  apply (deleteFile_frame dirname param filename fs K Hdec).
  - rewrite Kp. apply HK.
  - rewrite Ki. apply HK.
  - rewrite Kj. apply HK.
Qed.

(** X14. With an absolute module directory, a delete by a plain name
    (no separator, not [.] or [..]) can change nothing but entries
    directly inside the upload directory: every other key of the file
    system is the same after the call as before. *)
Theorem plain_name_stays_in_uploads (dirname param filename : string) (fs : FS)
    (K : list string) :
  Path.isAbsolute dirname = true ->
  URI.decodeURIComponent param = Ok filename ->
  plain filename = true ->
  (forall entry, K <> (Fs.segments (uploadsDir dirname) ++ [entry])%list) ->
  snd (deleteFile dirname param fs) !! K = fs !! K.
Proof.
  intros Habs Hdec Hf HK.
  destruct (delete_keys dirname filename Habs Hf) as [Kp [Ki Kj]].
  apply (deleteFile_frame dirname param filename fs K Hdec).
  - rewrite Kp. apply HK.
  - rewrite Ki. apply HK.
  - rewrite Kj. apply HK.
Qed.

(** ** Deleting one file and the listing of the others *)

Lemma walk_subseteq (fs' fs : FS) cur rest n :
  fs' ⊆ fs -> Fs.walk fs' cur rest = inr n -> Fs.walk fs cur rest = inr n.
Proof.
  intros Hsub. revert cur. induction rest as [|a rest IH]; intros cur; simpl.
  - destruct (fs' !! cur) as [n'|] eqn:E; [|discriminate].
    now rewrite (lookup_weaken _ _ _ _ E Hsub).
  - destruct (fs' !! cur) as [n'|] eqn:E; [|discriminate].
    rewrite (lookup_weaken _ _ _ _ E Hsub). destruct n'; [trivial|apply IH].
Qed.

Lemma is_regular_subseteq (fs' fs : FS) p :
  fs' ⊆ fs -> is_regular fs' p = true -> is_regular fs p = true.
Proof.
  intros Hsub. unfold is_regular, Fs.resolve.
  destruct (Fs.walk fs' [] (Fs.segments p)) as [e|n] eqn:E; [discriminate|].
  rewrite (walk_subseteq _ _ _ _ _ Hsub E).
  destruct n; [|discriminate]. now destruct (JsString.endsWith p "/").
Qed.

Lemma walk_agree (fs' fs : FS) cur rest :
  (forall K, K `prefix_of` (cur ++ rest) -> fs' !! K = fs !! K) ->
  Fs.walk fs' cur rest = Fs.walk fs cur rest.
Proof.
  revert cur. induction rest as [|a rest IH]; intros cur H; simpl.
  - rewrite H; [reflexivity|]. rewrite app_nil_r. reflexivity.
  - rewrite H by (now exists (a :: rest)).
    destruct (fs !! cur) as [[c t|sz t]|]; try reflexivity.
    apply IH. intros K HK. apply H. now rewrite <- app_assoc in HK.
Qed.

Lemma deleteFile_not_regular (dirname param filename : string) (fs : FS) :
  URI.decodeURIComponent param = Ok filename ->
  is_regular fs (Path.join (uploadsDir dirname) filename) = false ->
  snd (deleteFile dirname param fs) = fs.
Proof.
  intros Hdec H. rewrite deleteFile_run, Hdec. cbv zeta. unfold is_regular in H.
  destruct (Fs.resolve fs (Path.join (uploadsDir dirname) filename))
    as [e|[c m|s m]]; try reflexivity. discriminate.
Qed.

Lemma plain_keys_subseteq (fs' fs : FS) :
  fs' ⊆ fs -> plain_keys fs -> plain_keys fs'.
Proof. intros Hsub H k n Hk. apply (H k n). exact (lookup_weaken _ _ _ _ Hk Hsub). Qed.

Lemma prefix_shorter {A} (K L : list A) x : K `prefix_of` L -> K <> (L ++ [x])%list.
Proof.
  intros [k ->] H. apply (f_equal (@List.length A)) in H.
  rewrite !List.length_app in H. simpl in H. lia.
Qed.

(** X15. In a quiescent upload directory whose keys are plain names and
    whose entry names are well-formed UTF-8, deleting one file by its
    plain name never hides another: every other name that was listed
    before the call is listed after it, whatever the call answered. *)
Theorem delete_keeps_other_files_listed (dirname param filename : string) (fs : FS) s m other :
  Path.isAbsolute dirname = true -> plain_keys fs ->
  utf8_names dirname fs = true ->
  Fs.resolve fs (uploadsDir dirname) = inr (Directory s m) ->
  URI.decodeURIComponent param = Ok filename ->
  plain filename = true ->
  other <> filename ->
  listed other (fst (listFiles dirname fs)) ->
  listed other (fst (listFiles dirname (snd (deleteFile dirname param fs)))).
Proof.
  intros Habs Hwf Hutf Hdir Hdec Hf Hne Hl.
  destruct (is_regular fs (Path.join (uploadsDir dirname) filename)) eqn:Hreg;
    [|now rewrite (deleteFile_not_regular _ _ _ _ Hdec Hreg)].
  set (fs' := snd (deleteFile dirname param fs)).
  assert (Hsub : fs' ⊆ fs) by apply deleteFile_subseteq.
  assert (Hframe : forall K,
             (forall entry, K <> (Fs.segments (uploadsDir dirname) ++ [entry])%list) ->
             fs' !! K = fs !! K).
  { intros K HK. now apply (deleteFile_confined dirname param filename). }
  assert (Hdir' : Fs.resolve fs' (uploadsDir dirname) = inr (Directory s m)).
  { unfold Fs.resolve in *. rewrite (walk_agree fs' fs); [exact Hdir|].
    intros K HK. apply Hframe. intros entry. now apply prefix_shorter. }
  apply (listed_quiescent dirname fs s m other Habs Hwf Hutf Hdir) in Hl
    as [[c [t Hfile]] [Hinfo Hside]].
  apply (listed_quiescent dirname fs' s m other Habs
           (plain_keys_subseteq _ _ Hsub Hwf)
           (utf8_names_subseteq _ _ _ Hsub Hutf) Hdir').
  destruct (delete_keys dirname filename Habs Hf) as [Kp [Ki Kj]].
  split; [|split; [exact Hinfo|]].
  - exists c, t. rewrite <- Hfile.
    apply (deleteFile_frame dirname param filename fs _ Hdec).
    + rewrite Kp. intros H. apply app_inj_tail in H as [_ H]. congruence.
    + rewrite Ki. intros H. apply app_inj_tail in H as [_ ->].
      now rewrite endsWith_app in Hinfo.
    + rewrite Kj. intros H. apply app_inj_tail in H as [_ ->].
      rewrite endsWith_app, slice_end_json, Hreg in Hside. discriminate.
  - destruct (JsString.endsWith other ".json"); [|reflexivity]. simpl in *.
    destruct (is_regular fs' _) eqn:E; [|reflexivity].
    now rewrite (is_regular_subseteq _ _ _ Hsub E) in Hside.
Qed.

(** ** Names that climb out of the upload directory *)

Lemma append_assoc (a b c : string) : ((a ++ b) ++ c)%string = (a ++ (b ++ c))%string.
Proof.
  induction a as [|x a IH]; [reflexivity|].
  change (String x ((a ++ b) ++ c) = String x (a ++ (b ++ c))). now f_equal.
Qed.

(** [../<x>] joined to the upload directory is [<x>] in the module
    directory. *)
Lemma join_uploads_parent (dirname x : string) :
  Path.isAbsolute dirname = true -> plain x = true ->
  Path.join (uploadsDir dirname) ("../" ++ x)
  = canonical (kept_segments dirname ++ [x]).
Proof.
  intros Habs Hx. rewrite uploadsDir_canonical by assumption.
  set (U := (kept_segments dirname ++ ["uploads"])%list).
  assert (HU : Forall (fun s => plain s = true) U)
    by (apply plain_snoc; [apply kept_segments_plain|reflexivity]).
  assert (HUne : U <> []) by apply snoc_not_nil.
  unfold Path.join. change (String.eqb (canonical U) "") with false.
  change (String.eqb ("../" ++ x) "") with false. cbv iota.
  assert (Hshape : (canonical U ++ "/" ++ "../" ++ x)%string
                   = ((canonical U ++ String "/" "..") ++ String "/" x)%string).
  { rewrite append_assoc. reflexivity. }
  rewrite Hshape. unfold Path.normalize.
  change (String.eqb ((canonical U ++ String "/" "..") ++ String "/" x) "")
    with false. cbv iota.
  change (Path.isAbsolute ((canonical U ++ String "/" "..") ++ String "/" x))
    with true.
  rewrite no_trailing_slash_plain by assumption. simpl negb.
  assert (Hbody : Path.normalizeString false
                    (JsString.split "/"
                       ((canonical U ++ String "/" "..") ++ String "/" x))
                  = (kept_segments dirname ++ [x])%list).
  { rewrite split_join_plain by assumption.
    rewrite split_sep_app, split_canonical by assumption.
    unfold Path.normalizeString. rewrite !fold_left_app. simpl.
    rewrite fold_push_proper by now apply Forall_plain_proper.
    unfold U. rewrite rev_app_distr, app_nil_r. simpl.
    rewrite push_proper by now apply plain_proper.
    change (Path.push false ("uploads" :: rev (kept_segments dirname)) "..")
      with (rev (kept_segments dirname)).
    simpl. now rewrite rev_involutive. }
  rewrite Hbody.
  destruct (String.eqb_spec (Path.unsplit (kept_segments dirname ++ [x])) "")
    as [E|_].
  - apply unsplit_snoc_nonempty in E; [contradiction|].
    apply nonempty_neq, plain_nonempty, Hx.
  - unfold canonical. simpl. now rewrite append_empty_r.
Qed.

Lemma decode_parent (x : string) :
  percent_free x = true ->
  URI.decodeURIComponent ("..%2F" ++ x) = Ok ("../" ++ x)%string.
Proof.
  intros Hx. pose proof (decode_percent_free x Hx) as Hd.
  unfold URI.decodeURIComponent in *.
  destruct (URI.decode None x) as [d|] eqn:E; [|discriminate].
  injection Hd as ->.
  change ("..%2F" ++ x)%string
    with (String "." (String "." (String "%" (String "2" (String "F" x))))).
  rewrite !decode_unfold. simpl. rewrite E. reflexivity.
Qed.

Lemma deleteFile_removes_primary (dirname param filename : string) (fs : FS) c t :
  URI.decodeURIComponent param = Ok filename ->
  Fs.resolve fs (Path.join (uploadsDir dirname) filename) = inr (File c t) ->
  snd (deleteFile dirname param fs)
    !! Fs.segments (Path.join (uploadsDir dirname) filename) = None.
Proof.
  intros Hdec Hfile. rewrite deleteFile_run, Hdec. cbv zeta. rewrite Hfile.
  set (p := Path.join (uploadsDir dirname) filename).
  assert (H1 : delete (Fs.segments p) fs !! Fs.segments p = None)
    by apply lookup_delete_eq.
  assert (H2 : after_cleanup (p ++ ".info") (delete (Fs.segments p) fs)
               !! Fs.segments p = None).
  { eapply lookup_weaken_None; [exact H1|apply after_cleanup_subseteq]. }
  destruct (is_directory _ (p ++ ".info")); [exact H1|].
  destruct (is_directory _ (p ++ ".json")); [exact H2|]. simpl.
  eapply lookup_weaken_None; [exact H2|apply after_cleanup_subseteq].
Qed.

(** X16. Whatever the (absolute) module directory, the parameter
    [..%2F<x>] for a plain name [<x>] without ['%'] and other than
    [uploads] is decoded to [../<x>] and resolved to [<x>] in the module
    directory itself, which is not below the upload directory; when that
    is a regular file, the delete handler removes it, and the download
    handler sends it if [setHeader] accepts [<x>]. *)
Theorem parent_name_reaches_module_directory (dirname x : string) :
  Path.isAbsolute dirname = true ->
  plain x = true -> percent_free x = true -> x <> "uploads" ->
  let p := canonical (kept_segments dirname ++ [x]) in
  URI.decodeURIComponent ("..%2F" ++ x) = Ok ("../" ++ x)%string
  /\ Path.join (uploadsDir dirname) ("../" ++ x) = p
  /\ ~ Fs.segments (uploadsDir dirname) `prefix_of` Fs.segments p
  /\ forall (fs : FS) content mtime,
       Fs.resolve fs p = inr (File content mtime) ->
       (header_safe x = true ->
        downloadFile dirname ("..%2F" ++ x) fs
        = (Ok (Response 200 (Attachment ("../" ++ x) content)), fs))
       /\ snd (deleteFile dirname ("..%2F" ++ x) fs) !! Fs.segments p = None.
Proof.
  intros Habs Hx Hpf Hne p.
  assert (Hdec := decode_parent x Hpf).
  assert (Hjoin := join_uploads_parent dirname x Habs Hx). fold p in Hjoin.
  split; [exact Hdec|]. split; [exact Hjoin|]. split.
  - rewrite uploads_segments by assumption. unfold p.
    rewrite segments_canonical;
      [|apply snoc_not_nil|apply plain_snoc; [apply kept_segments_plain|assumption]].
    apply sibling_not_prefix. congruence.
  - intros fs content mtime Hfile. split.
    + intros Hsafe. rewrite downloadFile_run, Hdec. cbv zeta.
      rewrite Hjoin, Hfile.
      assert (Hs : header_safe ("../" ++ x) = header_safe x) by reflexivity.
      now rewrite Hs, Hsafe.
    + rewrite <- Hjoin in Hfile |- *.
      now apply (deleteFile_removes_primary dirname _ _ fs content mtime).
Qed.

(** ** Percent-encoding and decoding of names *)

Lemma unreserved_ascii c :
  URI.unreserved c = true ->
  Ascii.eqb c "%" = false /\ (N_of_ascii c <=? 127)%N = true.
Proof.
  destruct c as [[] [] [] [] [] [] [] []]; vm_compute; intros H;
    (discriminate || (split; reflexivity)).
Qed.

Lemma hex_digits c :
  URI.hex_value (URI.hex_char (N_of_ascii c / 16)) = Some (N_of_ascii c / 16)%N
  /\ URI.hex_value (URI.hex_char (N_of_ascii c mod 16)) = Some (N_of_ascii c mod 16)%N.
Proof. destruct c as [[] [] [] [] [] [] [] []]; vm_compute; split; reflexivity. Qed.

Lemma encode_unfold c rest :
  URI.encodeURIComponent (String c rest)
  = if URI.unreserved c then String c (URI.encodeURIComponent rest)
    else String "%" (String (URI.hex_char (N_of_ascii c / 16))
           (String (URI.hex_char (N_of_ascii c mod 16))
              (URI.encodeURIComponent rest))).
Proof. reflexivity. Qed.

(** Decoding the escape of a byte. *)
Lemma decode_escape open c rest :
  URI.decode open
    (String "%" (String (URI.hex_char (N_of_ascii c / 16))
       (String (URI.hex_char (N_of_ascii c mod 16)) rest)))
  = let B := N_of_ascii c in
    match open with
    | None =>
        if (B <? 128)%N then String c <$> URI.decode None rest
        else match URI.sequence_length B with
             | Some n => URI.decode (Some ([B], Nat.pred n)) rest
             | None => None
             end
    | Some (octets, k) =>
        if URI.continuation B then
          match k with
          | 0%nat | 1%nat =>
              if Utf8.well_formed None (octets ++ [B])
              then String.append (JsString.of_bytes (octets ++ [B]))
                     <$> URI.decode None rest
              else None
          | S k' => URI.decode (Some ((octets ++ [B])%list, k')) rest
          end
        else None
    end.
Proof.
  rewrite decode_unfold. change (Ascii.eqb "%" "%") with true. cbv iota.
  destruct (hex_digits c) as [-> ->].
  assert (HB : (16 * (N_of_ascii c / 16) + N_of_ascii c mod 16)%N = N_of_ascii c)
    by (symmetry; apply N.div_mod; discriminate).
  cbv zeta. rewrite HB, ascii_N_embedding. reflexivity.
Qed.

Lemma lead_ok b p :
  Utf8.lead b = Some p ->
  open_ok p /\ Utf8.seen p = [b]
  /\ URI.sequence_length b = Some (S (Utf8.needed p))
  /\ (b <? 128)%N = false /\ (b <=? 127)%N = false.
Proof.
  intros H.
  assert (Hb : (194 <= b)%N).
  { unfold Utf8.lead in H.
    destruct ((194 <=? b)%N && (b <=? 223)%N) eqn:E1;
      [apply andb_true_iff in E1 as [E1 _]; now apply N.leb_le in E1|].
    destruct ((224 <=? b)%N && (b <=? 239)%N) eqn:E2;
      [apply andb_true_iff in E2 as [E2 _]; apply N.leb_le in E2; lia|].
    destruct ((240 <=? b)%N && (b <=? 244)%N) eqn:E3; [|discriminate].
    apply andb_true_iff in E3 as [E3 _]. apply N.leb_le in E3. lia. }
  assert (H127 : (b <=? 127)%N = false) by (apply N.leb_gt; lia).
  assert (H128 : (b <? 128)%N = false) by (apply N.ltb_ge; lia).
  assert (Hwf : forall q, Utf8.lead b = Some q ->
            forall l, Utf8.well_formed None (b :: l) = Utf8.well_formed (Some q) l).
  { intros q Hq l. simpl. now rewrite H127, Hq. }
  specialize (Hwf p H). unfold Utf8.lead in H. unfold open_ok, URI.sequence_length.
  destruct ((194 <=? b)%N && (b <=? 223)%N) eqn:E1.
  { injection H as <-. simpl in *. apply andb_true_iff in E1 as [_ E1].
    apply N.leb_le in E1.
    assert ((b <? 192)%N = false) by (apply N.ltb_ge; lia).
    assert ((b <? 224)%N = true) by (apply N.ltb_lt; lia).
    repeat split; try assumption; try lia. now rewrite H, H0. }
  destruct ((224 <=? b)%N && (b <=? 239)%N) eqn:E2.
  { injection H as <-. simpl in *. apply andb_true_iff in E2 as [E2 E2'].
    apply N.leb_le in E2, E2'.
    assert ((b <? 192)%N = false) by (apply N.ltb_ge; lia).
    assert ((b <? 224)%N = false) by (apply N.ltb_ge; lia).
    assert ((b <? 240)%N = true) by (apply N.ltb_lt; lia).
    repeat split; try assumption.
    - destruct (b =? 224)%N; lia.
    - destruct (b =? 237)%N; lia.
    - now rewrite H, H0, H1. }
  destruct ((240 <=? b)%N && (b <=? 244)%N) eqn:E3; [|discriminate].
  injection H as <-. simpl in *. apply andb_true_iff in E3 as [E3 E3'].
  apply N.leb_le in E3, E3'.
  assert ((b <? 192)%N = false) by (apply N.ltb_ge; lia).
  assert ((b <? 224)%N = false) by (apply N.ltb_ge; lia).
  assert ((b <? 240)%N = false) by (apply N.ltb_ge; lia).
  assert ((b <? 248)%N = true) by (apply N.ltb_lt; lia).
  repeat split; try assumption.
  - destruct (b =? 240)%N; lia.
  - destruct (b =? 244)%N; lia.
  - now rewrite H, H0, H1, H2.
Qed.

Lemma accepts_continuation p b :
  open_ok p -> Utf8.accepts p b = true ->
  URI.continuation b = true /\ (b <=? 127)%N = false.
Proof.
  intros [_ [Hl Hu]] H. unfold Utf8.accepts in H.
  apply andb_true_iff in H as [H1 H2]. apply N.leb_le in H1, H2.
  unfold URI.continuation. split.
  - apply andb_true_iff. split; apply N.leb_le; lia.
  - apply N.leb_gt. lia.
Qed.

Lemma open_ok_advance p b k :
  open_ok p -> Utf8.accepts p b = true -> Utf8.needed p = S (S k) ->
  open_ok (Utf8.Pending (Utf8.seen p ++ [b]) (S k) 128 191).
Proof.
  intros [Hwf _] Hacc Hn. unfold open_ok. simpl. split; [|lia].
  intros l. rewrite <- app_assoc. simpl. rewrite Hwf. simpl. rewrite Hacc. simpl.
  unfold Utf8.advance. now rewrite Hn.
Qed.

Lemma open_ok_close p b :
  open_ok p -> Utf8.accepts p b = true -> (Utf8.needed p <= 1)%nat ->
  Utf8.well_formed None (Utf8.seen p ++ [b]) = true.
Proof.
  intros [Hwf _] Hacc Hn. rewrite Hwf. simpl. rewrite Hacc. simpl.
  unfold Utf8.advance. destruct (Utf8.needed p) as [|[|k]]; try reflexivity. lia.
Qed.

Lemma of_bytes_snoc l c r :
  (JsString.of_bytes (l ++ [N_of_ascii c]) ++ r)%string
  = (JsString.of_bytes l ++ String c r)%string.
Proof.
  unfold JsString.of_bytes. induction l as [|b l IH]; simpl.
  - now rewrite ascii_N_embedding.
  - change (String (ascii_of_N b)
              (string_of_list_ascii (map ascii_of_N (l ++ [N_of_ascii c])) ++ r)
            = String (ascii_of_N b)
                (string_of_list_ascii (map ascii_of_N l) ++ String c r)).
    now f_equal.
Qed.

Lemma not_unreserved c : (N_of_ascii c <=? 127)%N = false -> URI.unreserved c = false.
Proof.
  intros H. destruct (URI.unreserved c) eqn:E; [|reflexivity].
  apply unreserved_ascii in E as [_ E]. congruence.
Qed.

(** Decoding what was encoded, started in any consistent state of the
    UTF-8 decoder. *)
Lemma decode_encode_from s : forall st,
  Utf8.well_formed st (name_bytes s) = true ->
  (forall p, st = Some p -> open_ok p) ->
  URI.decode (decoder_state st) (URI.encodeURIComponent s)
  = Some (decoded_so_far st ++ s)%string.
Proof.
  induction s as [|c s IH]; intros st Hwf Hok.
  - destruct st as [p|]; [discriminate|reflexivity].
  - assert (IHnone : Utf8.well_formed None (name_bytes s) = true ->
              URI.decode None (URI.encodeURIComponent s) = Some s).
    { intros W. refine (IH None W _). discriminate. }
    assert (IHsome : forall p, Utf8.well_formed (Some p) (name_bytes s) = true ->
              open_ok p ->
              URI.decode (Some (Utf8.seen p, Utf8.needed p)) (URI.encodeURIComponent s)
              = Some (JsString.of_bytes (Utf8.seen p) ++ s)%string).
    { intros p W Hp. refine (IH (Some p) W _). now intros q [= <-]. }
    clear IH.
    change (name_bytes (String c s)) with (N_of_ascii c :: name_bytes s) in Hwf.
    rewrite encode_unfold. destruct st as [p|].
    + specialize (Hok p eq_refl). simpl in Hwf.
      apply andb_true_iff in Hwf as [Hacc Hwf].
      destruct (accepts_continuation p _ Hok Hacc) as [Hcont H127].
      rewrite (not_unreserved c H127), decode_escape. cbv zeta.
      unfold decoder_state, decoded_so_far. rewrite Hcont.
      unfold Utf8.advance in Hwf.
      destruct (Utf8.needed p) as [|[|k]] eqn:Hn; simpl in Hwf.
      * rewrite (open_ok_close p _ Hok Hacc) by lia.
        rewrite (IHnone Hwf). simpl. now rewrite of_bytes_snoc.
      * rewrite (open_ok_close p _ Hok Hacc) by lia.
        rewrite (IHnone Hwf). simpl. now rewrite of_bytes_snoc.
      * pose proof (IHsome _ Hwf (open_ok_advance p _ k Hok Hacc Hn)) as H.
        simpl in H. rewrite H. now rewrite of_bytes_snoc.
    + simpl in Hwf. unfold decoder_state, decoded_so_far.
      destruct (N_of_ascii c <=? 127)%N eqn:H127.
      * destruct (URI.unreserved c) eqn:Hu.
        -- rewrite decode_unfold. destruct (unreserved_ascii c Hu) as [-> _].
           rewrite (IHnone Hwf). reflexivity.
        -- rewrite decode_escape. cbv zeta.
           assert (H128 : (N_of_ascii c <? 128)%N = true).
           { apply N.ltb_lt. apply N.leb_le in H127. lia. }
           rewrite H128, (IHnone Hwf). reflexivity.
      * destruct (Utf8.lead (N_of_ascii c)) as [p|] eqn:Hlead; [|discriminate].
        destruct (lead_ok _ _ Hlead) as [Hp [Hseen [Hlen [H128 _]]]].
        rewrite (not_unreserved c H127), decode_escape. cbv zeta.
        rewrite H128, Hlen. simpl Nat.pred. rewrite <- Hseen.
        rewrite (IHsome p Hwf Hp). rewrite Hseen.
        change (JsString.of_bytes [N_of_ascii c]) with
          (String (ascii_of_N (N_of_ascii c)) EmptyString).
        now rewrite ascii_N_embedding.
Qed.

Lemma decode_encode s :
  utf8_name s = true ->
  URI.decodeURIComponent (URI.encodeURIComponent s) = Ok s.
Proof.
  intros H. unfold URI.decodeURIComponent.
  assert (E : URI.decode None (URI.encodeURIComponent s) = Some s).
  { refine (decode_encode_from s None H _). discriminate. }
  now rewrite E.
Qed.

(** X17. Percent-encoding a name that is well-formed UTF-8 and decoding
    the result gives the name back. *)
Theorem decode_encode_name s :
  utf8_name s = true ->
  URI.decodeURIComponent (URI.encodeURIComponent s) = Ok s.
Proof.
  intros H. unfold URI.decodeURIComponent.
  assert (E : URI.decode None (URI.encodeURIComponent s) = Some s).
  { refine (decode_encode_from s None H _). discriminate. }
  now rewrite E.
Qed.

(** ** From the listing to the download *)

Lemma download_regular (dirname param filename : string) (fs : FS) content mtime :
  URI.decodeURIComponent param = Ok filename ->
  header_safe filename = true ->
  Fs.resolve fs (Path.join (uploadsDir dirname) filename) = inr (File content mtime) ->
  downloadFile dirname param fs
  = (Ok (Response 200 (Attachment filename content)), fs).
Proof.
  intros Hdec Hsafe Hfile. rewrite downloadFile_run, Hdec. cbv zeta.
  now rewrite Hfile, Hsafe.
Qed.

(** X18. A listed file whose name has no ['%'] is downloaded through its
    [url].  For every descriptor of a listing that is sent whose name is
    well-formed UTF-8, has no ['%'] and is accepted by [setHeader]: the
    [url] ends with the percent-encoded name, decoding that once (what the
    router does to get [req.params.filename]) gives the name, and the
    download handler, given the name as its parameter, answers 200 with
    that name and a content of the listed size. *)
Theorem listed_url_downloads_file dirname fs files :
  fst (listFiles dirname fs) = Ok (Response 200 (JsonFiles files)) ->
  Forall (fun e =>
            utf8_name (name e) = true ->
            percent_free (name e) = true ->
            header_safe (name e) = true ->
            exists content,
              String.length content = size e
              /\ url e = ("/api/files/" ++ URI.encodeURIComponent (name e))%string
              /\ URI.decodeURIComponent (URI.encodeURIComponent (name e))
                 = Ok (name e)
              /\ downloadFile dirname (name e) fs
                 = (Ok (Response 200 (Attachment (name e) content)), fs))
         files.
Proof.
  intros H. apply listing_descriptors in H.
  eapply List.Forall_impl; [|exact H]. clear H.
  intros e [content [mtime [Hfile [Hsize [_ Hurl]]]]] Hutf Hpf Hsafe.
  exists content. repeat split; try congruence.
  - now apply decode_encode.
  - apply (download_regular dirname _ (name e) fs content mtime);
      [now apply decode_percent_free|assumption|assumption].
Qed.

(** ** Checking that the keys of a file system are plain *)

Lemma plain_keys_check (fs : FS) :
  forallb (fun kv => forallb plain (fst kv)) (map_to_list fs) = true ->
  plain_keys fs.
Proof.
  intros H k n Hk. rewrite forallb_forall in H.
  apply elem_of_map_to_list, list_elem_of_In in Hk. specialize (H _ Hk).
  simpl in H. rewrite forallb_forall in H. now apply List.Forall_forall.
Qed.

(** ** Start-up *)

Lemma mkdir_p_made (size : nat) (now : Z) (fs fs' : FS) (cur rest : list string) :
  mkdir_p size now fs cur rest = Made fs' ->
  fs ⊆ fs'
  /\ exists s m, Fs.walk fs' cur rest = inr (Directory s m).
Proof.
  revert fs cur. induction rest as [|a rest IH]; intros fs cur H; simpl in H.
  - destruct (fs !! cur) as [[c t|sz t]|] eqn:E; try discriminate;
      injection H as <-.
    + split; [reflexivity|]. simpl. rewrite E. eauto.
    + split; [now apply insert_subseteq|]. simpl. rewrite lookup_insert_eq. eauto.
  - destruct (fs !! cur) as [[c t|sz t]|] eqn:E; try discriminate.
    + destruct (IH _ _ H) as [Hsub [s [m Hw]]]. split; [exact Hsub|].
      exists s, m. simpl. now rewrite (lookup_weaken _ _ _ _ E Hsub).
    + destruct (IH _ _ H) as [Hsub [s [m Hw]]].
      assert (Hsub0 : fs ⊆ <[cur := Directory size now]> fs)
        by now apply insert_subseteq.
      split; [now transitivity (<[cur := Directory size now]> fs)|].
      exists s, m. simpl.
      assert (E1 : <[cur := Directory size now]> fs !! cur
                   = Some (Directory size now)) by apply lookup_insert_eq.
      now rewrite (lookup_weaken _ _ _ _ E1 Hsub).
Qed.

Lemma resolve_of_walk_directory (fs : FS) p s m :
  Fs.walk fs [] (Fs.segments p) = inr (Directory s m) ->
  Fs.resolve fs p = inr (Directory s m).
Proof. unfold Fs.resolve. now intros ->. Qed.

Lemma startup_made (size : nat) (now : Z) (dirname : string) (fs fs' : FS) :
  startup size now dirname fs = Made fs' ->
  fs ⊆ fs'
  /\ exists_path fs' (uploadsDir dirname) = true
  /\ (exists_path fs (uploadsDir dirname) = true -> fs' = fs)
  /\ (exists_path fs (uploadsDir dirname) = false ->
      is_directory fs' (uploadsDir dirname) = true)
  /\ startup size now dirname fs' = Made fs'.
Proof.
  unfold startup. destruct (exists_path fs (uploadsDir dirname)) eqn:E.
  - intros [= <-]. rewrite E. repeat split; try reflexivity. discriminate.
  - intros H. destruct (mkdir_p_made _ _ _ _ _ _ H) as [Hsub [s [m Hw]]].
    apply resolve_of_walk_directory in Hw.
    assert (E' : exists_path fs' (uploadsDir dirname) = true)
      by (unfold exists_path; now rewrite Hw).
    rewrite E'. repeat split; try assumption; try discriminate.
    intros _. unfold is_directory. now rewrite Hw.
Qed.

(** X19. When the start-up code returns, the upload path exists and
    everything that was in the file system is still there, unchanged.  If
    the path existed before, nothing was changed at all; if it did not,
    it is now a directory.  Running the start-up code again changes
    nothing. *)
Theorem startup_provides_upload_directory (size : nat) (now : Z) (dirname : string)
    (fs fs' : FS) :
  startup size now dirname fs = Made fs' ->
  fs ⊆ fs'
  /\ exists_path fs' (uploadsDir dirname) = true
  /\ (exists_path fs (uploadsDir dirname) = true -> fs' = fs)
  /\ (exists_path fs (uploadsDir dirname) = false ->
      is_directory fs' (uploadsDir dirname) = true)
  /\ startup size now dirname fs' = Made fs'.
Proof.
  unfold startup. destruct (exists_path fs (uploadsDir dirname)) eqn:E.
  - intros [= <-]. rewrite E. repeat split; try reflexivity. discriminate.
  - intros H. destruct (mkdir_p_made _ _ _ _ _ _ H) as [Hsub [s [m Hw]]].
    apply resolve_of_walk_directory in Hw.
    assert (E' : exists_path fs' (uploadsDir dirname) = true)
      by (unfold exists_path; now rewrite Hw).
    rewrite E'. repeat split; try assumption; try discriminate.
    intros _. unfold is_directory. now rewrite Hw.
Qed.

Lemma mkdir_p_frame (size : nat) (now : Z) (fs fs' : FS) (cur rest K : list string) :
  mkdir_p size now fs cur rest = Made fs' ->
  ~ K `prefix_of` (cur ++ rest) -> fs' !! K = fs !! K.
Proof.
  revert fs cur. induction rest as [|a rest IH]; intros fs cur H HK; simpl in H.
  - assert (K <> cur) by (intros ->; apply HK; now exists []).
    destruct (fs !! cur) as [[c t|sz t]|] eqn:E; try discriminate;
      injection H as <-; [reflexivity|now apply lookup_insert_ne].
  - assert (K <> cur) by (intros ->; apply HK; now exists (a :: rest)).
    assert (HK' : ~ K `prefix_of` ((cur ++ [a]) ++ rest))
      by now rewrite <- app_assoc.
    destruct (fs !! cur) as [[c t|sz t]|] eqn:E; try discriminate.
    + now apply (IH _ _ H).
    + rewrite (IH _ _ H HK'). now apply lookup_insert_ne.
Qed.

Lemma longer_not_prefix {A} (L : list A) x : ~ (L ++ [x]) `prefix_of` L.
Proof.
  intros [k H]. apply (f_equal (@List.length A)) in H.
  rewrite !List.length_app in H. simpl in H. lia.
Qed.

Lemma entries_nil (fs : FS) dir :
  (forall x, fs !! (dir ++ [x])%list = None) -> Fs.entries fs dir = [].
Proof.
  intros H. destruct (Fs.entries fs dir) as [|x l] eqn:E; [reflexivity|].
  assert (Hin : In x (Fs.entries fs dir)) by (rewrite E; now left).
  apply in_entries in Hin as [n Hn]. rewrite H in Hn. discriminate.
Qed.

(** X20. When the start-up code had to create the upload directory and
    nothing lay below that path before, the first listing answers 200
    with no file. *)
Theorem fresh_upload_directory_lists_nothing (size : nat) (now : Z)
    (dirname : string) (fs fs' : FS) :
  startup size now dirname fs = Made fs' ->
  exists_path fs (uploadsDir dirname) = false ->
  (forall x, fs !! (Fs.segments (uploadsDir dirname) ++ [x])%list = None) ->
  listFiles dirname fs' = (Ok (Response 200 (JsonFiles [])), fs').
Proof.
  intros H Hex Hempty. pose proof H as H0. unfold startup in H0.
  rewrite Hex in H0. unfold mkdirSync_recursive in H0.
  destruct (startup_made _ _ _ _ _ H) as [_ [_ [_ [Hdir _]]]].
  specialize (Hdir Hex). unfold is_directory in Hdir.
  rewrite listFiles_quiet, listFilesDuring_run.
  destruct (Fs.resolve fs' (uploadsDir dirname)) as [e|[c t|s t]];
    try discriminate.
  unfold Fs.names. rewrite entries_nil; [reflexivity|].
  intros x. rewrite (mkdir_p_frame _ _ _ _ _ _ _ H0); [apply Hempty|].
  simpl. apply longer_not_prefix.
Qed.

(** ** After a delete *)

(** X21. Once the delete handler has been called on a name whose primary
    is a regular file, a download of the same name answers 404, whatever
    the delete answered (200, or 500 when the removal of an auxiliary
    artifact failed). *)
Theorem deleted_file_is_not_downloadable (dirname param filename : string)
    (fs : FS) c t :
  URI.decodeURIComponent param = Ok filename ->
  Fs.resolve fs (Path.join (uploadsDir dirname) filename) = inr (File c t) ->
  fst (downloadFile dirname param (snd (deleteFile dirname param fs)))
  = Ok (Response 404 (JsonError "File not found")).
Proof.
  intros Hdec Hfile. rewrite downloadFile_run, Hdec. cbv zeta. simpl.
  destruct (resolve_absent _ _
              (deleteFile_removes_primary dirname param filename fs c t Hdec Hfile))
    as [e ->].
  reflexivity.
Qed.

(** ** No name twice *)

Lemma entries_NoDup_from dir (l : list (list string * node)) :
  NoDup (map fst l) ->
  NoDup (omap (fun kv => Fs.child_of dir (fst kv)) l).
Proof.
  induction l as [|[k n] l IH]; simpl; intros H; [constructor|].
  apply NoDup_cons in H as [Hk Hl].
  destruct (Fs.child_of dir k) as [file|] eqn:E; [|now apply IH].
  apply NoDup_cons. split; [|now apply IH].
  intros Hin. apply list_elem_of_omap in Hin as [[k' n'] [Hin' E']].
  simpl in E'. apply child_of_spec in E, E'. subst k k'.
  apply Hk. apply list_elem_of_In, in_map_iff. exists (dir ++ [file], n').
  split; [reflexivity|now apply list_elem_of_In].
Qed.

Lemma entries_NoDup (fs : FS) dir : NoDup (Fs.entries fs dir).
Proof. apply entries_NoDup_from, NoDup_fst_map_to_list. Qed.

Lemma filter_NoDup {A} (f : A -> bool) (l : list A) :
  NoDup l -> NoDup (List.filter f l).
Proof.
  induction l as [|a l IH]; simpl; intros H; [constructor|].
  apply NoDup_cons in H as [Ha Hl]. destruct (f a); [|now apply IH].
  apply NoDup_cons. split; [|now apply IH].
  intros Hin. apply Ha. apply list_elem_of_In in Hin.
  apply List.filter_In in Hin as [Hin _]. now apply list_elem_of_In.
Qed.

(** X22. When the names of all entries of the upload directory are
    well-formed UTF-8, a listing that is sent names no file twice.  (Two
    entries whose names are not are both reported as U+FFFD.) *)
Theorem listing_has_no_duplicates dirname fs files :
  utf8_names dirname fs = true ->
  fst (listFiles dirname fs) = Ok (Response 200 (JsonFiles files)) ->
  NoDup (map name files).
Proof.
  intros Hutf H. rewrite (listing_names _ _ _ H), (names_utf8 _ _ Hutf).
  apply filter_NoDup, entries_NoDup.
Qed.

(** ** The further properties at concrete inputs *)

Lemma video_fs_plain : plain_keys video_fs.
Proof. apply plain_keys_check. vm_compute. reflexivity. Qed.

Lemma bare_fs_uploads_empty x :
  bare_fs !! (Fs.segments (uploadsDir app_root) ++ [x])%list = None.
Proof.
  destruct (bare_fs !! _) as [n|] eqn:E; [exfalso|reflexivity].
  apply elem_of_map_to_list, list_elem_of_In in E. vm_compute in E.
  intuition discriminate.
Qed.

Lemma download_absent_is_404_witness :
  fst (downloadFile app_root "ghost.txt" orphan_fs)
  = Ok (Response 404 (JsonError "File not found")).
Proof.
  refine (f_equal fst (download_absent_is_404 app_root "ghost.txt" "ghost.txt"
                         orphan_fs eq_refl _)).
  vm_compute. reflexivity.
Defined.

Lemma download_streams_stored_content_witness :
  fst (downloadFile app_root "video.mp4" video_fs)
  = Ok (Response 200 (Attachment "video.mp4" "MP4DATA")).
Proof.
  refine (f_equal fst (download_streams_stored_content app_root "video.mp4"
                         "video.mp4" video_fs "MP4DATA" 10 eq_refl _ _));
    vm_compute; reflexivity.
Defined.

Lemma download_refuses_unsafe_name_witness :
  fst (downloadFile app_root "%D0%B0" cyrillic_fs)
  = Ok (Response 500 (JsonError
          ("Invalid character in header content [" ++ dquote
           ++ "Content-Disposition" ++ dquote ++ "]"))).
Proof.
  refine (f_equal fst (download_refuses_unsafe_name app_root "%D0%B0"
                         (JsString.of_bytes [208; 176]%N) cyrillic_fs _ _ _));
    vm_compute; reflexivity.
Defined.

Lemma malformed_parameter_is_500_witness :
  fst (deleteFile app_root "%zz" video_fs)
  = Ok (Response 500 (JsonError "URI malformed")).
Proof.
  refine (f_equal fst (proj2 (malformed_parameter_is_500 app_root "%zz" URIError
                                video_fs _))).
  reflexivity.
Defined.

Lemma delete_leaves_other_entries_witness :
  snd (deleteFile app_root "video.mp4" video_fs) !! up "report.json"
  = video_fs !! up "report.json".
Proof.
  refine (delete_leaves_other_entries app_root "video.mp4" "video.mp4" video_fs
            (up "report.json") eq_refl _ _ _);
    intros H; vm_compute in H; discriminate H.
Defined.

Lemma naming_throws_on_valueless_pair_witness :
  exists msg,
    namingFunction 1700000000000 (Some "filename dGVzdA==,bare")
    = Throw (TypeError msg).
Proof.
  refine (naming_throws_on_valueless_pair 1700000000000
            "filename dGVzdA==,bare" _ _).
  - discriminate.
  - vm_compute. apply Exists_cons_tl, Exists_cons_hd. reflexivity.
Defined.

Lemma naming_never_returns_empty_witness : "test.txt" <> EmptyString.
Proof.
  refine (naming_never_returns_empty 1700000000000
            (Some "filename dGVzdC50eHQ=") "test.txt" _).
  vm_compute. reflexivity.
Defined.

Lemma listing_is_filtered_enumeration_witness :
  ["report.json"; "video.mp4"]
  = List.filter (listable app_root video_fs)
      (Fs.names video_fs (Fs.segments (uploadsDir app_root))).
Proof.
  refine (listing_is_filtered_enumeration app_root video_fs
            [FileEntry "report.json" 2 13 "/api/files/report.json";
             FileEntry "video.mp4" 7 10 "/api/files/video.mp4"] _).
  vm_compute. reflexivity.
Defined.

Lemma listing_descriptors_match_files_witness :
  exists content mtime,
    Fs.resolve video_fs (Path.join (uploadsDir app_root) "report.json")
    = inr (File content mtime)
    /\ 2%nat = String.length content /\ 13%Z = mtime.
Proof.
  assert (H := listing_descriptors_match_files app_root video_fs
            [FileEntry "report.json" 2 13 "/api/files/report.json";
             FileEntry "video.mp4" 7 10 "/api/files/video.mp4"]).
  assert (E : fst (listFiles app_root video_fs)
              = Ok (Response 200 (JsonFiles
                  [FileEntry "report.json" 2 13 "/api/files/report.json";
                   FileEntry "video.mp4" 7 10 "/api/files/video.mp4"])))
    by (vm_compute; reflexivity).
  apply H in E. apply List.Forall_inv in E.
  destruct E as [content [mtime [E1 [E2 [E3 _]]]]]. exists content, mtime. auto.
Defined.

Lemma quiescent_listing_succeeds_witness :
  exists files,
    fst (listFiles app_root video_fs) = Ok (Response 200 (JsonFiles files)).
Proof.
  destruct (quiescent_listing_succeeds app_root video_fs 4096 0)
    as [files [H _]].
  - reflexivity.
  - exact video_fs_plain.
  - vm_compute. reflexivity.
  - vm_compute. reflexivity.
  - exists files. now rewrite H.
Defined.

Lemma plain_name_stays_in_uploads_witness :
  snd (deleteFile app_root "video.mp4" video_fs) !! ["srv"; "store"; "server.js"]
  = video_fs !! ["srv"; "store"; "server.js"].
Proof.
  refine (plain_name_stays_in_uploads app_root "video.mp4" "video.mp4" video_fs
            ["srv"; "store"; "server.js"] eq_refl eq_refl eq_refl _).
  intros entry H. vm_compute in H. discriminate H.
Defined.

Lemma delete_keeps_other_files_listed_witness :
  listed "report.json"
    (fst (listFiles app_root (snd (deleteFile app_root "video.mp4" video_fs)))).
Proof.
  refine (delete_keeps_other_files_listed app_root "video.mp4" "video.mp4"
            video_fs 4096 0 "report.json" eq_refl video_fs_plain _ _ eq_refl
            eq_refl _ _).
  - vm_compute. reflexivity.
  - vm_compute. reflexivity.
  - discriminate.
  - vm_compute. auto.
Defined.

Lemma parent_name_reaches_module_directory_witness :
  Path.join (uploadsDir app_root) "../server.js" = "/srv/store/server.js".
Proof.
  refine (proj1 (proj2 (parent_name_reaches_module_directory app_root "server.js"
                          eq_refl eq_refl eq_refl _))).
  discriminate.
Defined.

Lemma decode_encode_name_witness :
  URI.decodeURIComponent
    (URI.encodeURIComponent (JsString.of_bytes [208; 176; 32; 49; 37]%N))
  = Ok (JsString.of_bytes [208; 176; 32; 49; 37]%N).
Proof.
  refine (decode_encode_name (JsString.of_bytes [208; 176; 32; 49; 37]%N) _).
  vm_compute. reflexivity.
Defined.

Lemma listed_url_downloads_file_witness :
  exists content,
    String.length content = 2%nat
    /\ downloadFile app_root "report.json" video_fs
       = (Ok (Response 200 (Attachment "report.json" content)), video_fs).
Proof.
  assert (H := listed_url_downloads_file app_root video_fs
            [FileEntry "report.json" 2 13 "/api/files/report.json";
             FileEntry "video.mp4" 7 10 "/api/files/video.mp4"]).
  assert (E : fst (listFiles app_root video_fs)
              = Ok (Response 200 (JsonFiles
                  [FileEntry "report.json" 2 13 "/api/files/report.json";
                   FileEntry "video.mp4" 7 10 "/api/files/video.mp4"])))
    by (vm_compute; reflexivity).
  apply H in E. apply List.Forall_inv in E.
  destruct (E eq_refl eq_refl eq_refl) as [content [Hlen [_ [_ Hd]]]].
  exists content. split; [exact Hlen|exact Hd].
Defined.

Lemma startup_provides_upload_directory_witness :
  exists_path (<[["srv"; "store"; "uploads"] := Directory 4096 99]> bare_fs)
    (uploadsDir app_root) = true.
Proof.
  refine (proj1 (proj2 (startup_provides_upload_directory 4096 99 app_root bare_fs
                          (<[["srv"; "store"; "uploads"] := Directory 4096 99]> bare_fs)
                          _))).
  vm_compute. reflexivity.
Defined.

Lemma fresh_upload_directory_lists_nothing_witness :
  fst (listFiles app_root
         (<[["srv"; "store"; "uploads"] := Directory 4096 99]> bare_fs))
  = Ok (Response 200 (JsonFiles [])).
Proof.
  refine (f_equal fst (fresh_upload_directory_lists_nothing 4096 99 app_root
                         bare_fs _ _ _ bare_fs_uploads_empty)).
  - vm_compute. reflexivity.
  - vm_compute. reflexivity.
Defined.

Lemma deleted_file_is_not_downloadable_witness :
  fst (downloadFile app_root "video.mp4"
         (snd (deleteFile app_root "video.mp4" stuck_fs)))
  = Ok (Response 404 (JsonError "File not found")).
Proof.
  refine (deleted_file_is_not_downloadable app_root "video.mp4" "video.mp4"
            stuck_fs "MP4DATA" 10 eq_refl _).
  vm_compute. reflexivity.
Defined.

Lemma listing_has_no_duplicates_witness :
  NoDup ["report.json"; "video.mp4"].
Proof.
  refine (listing_has_no_duplicates app_root video_fs
            [FileEntry "report.json" 2 13 "/api/files/report.json";
             FileEntry "video.mp4" 7 10 "/api/files/video.mp4"] _ _);
    vm_compute; reflexivity.
Defined.
